(** * NexusSpace frontend: analysis request lifecycle

    A shallow embedding of the browser dashboard's core:
    - [Api]: [NexusApiClient.analyzeProject] (frontend/src/api.js), the one
      outbound call and its error normalisation;
    - [Progress]: the [useEffect] of [AnalysisProgress.jsx], a timer-driven
      three-stage animation, over a model of the host's timer queue;
    - [App]: the state of [App.jsx], [handleAnalyzeClick], the rendering
      conditions and the events a user and the host can deliver.

    JavaScript numbers are binary64 floats ([PrimFloat]); JSON payloads are
    the values [JSON.parse] can produce. *)

From Stdlib Require Import ZArith List String Ascii Bool Lia PrimFloat.
Import ListNotations.

Local Open Scope string_scope.

(* ================================================================= *)
(** ** JavaScript values that cross the HTTP boundary *)

Module JS.

(** What [JSON.parse] can return.  An object keeps its own properties in
    insertion order, each key once. *)
#[local] Unset Elimination Schemes.
Inductive Json : Type :=
| JNull
| JBool (b : bool)
| JNumber (f : float)
| JString (s : string)
| JArray (elements : list Json)
| JObject (props : list (string * Json)).
#[local] Set Elimination Schemes.

(** An integer literal as a number; exact below 2^53. *)
Fixpoint float_of_pos (p : positive) : float :=
  match p with
  | xH => 1
  | xO q => 2 * float_of_pos q
  | xI q => 2 * float_of_pos q + 1
  end%float.

Definition float_of_Z (z : Z) : float :=
  match z with
  | Z0 => 0
  | Zpos p => float_of_pos p
  | Zneg p => - float_of_pos p
  end%float.

(** [Math.min] on two numbers: [NaN] is contagious and [-0] is below [+0]. *)
Definition Math_min (a b : float) : float :=
  if is_nan a || is_nan b then nan
  else if (a <? b)%float then a
  else if (b <? a)%float then b
  else if get_sign a then a else b.

(** The outcome of evaluating an expression that may throw. *)
Inductive Completion (A : Type) : Type :=
| Normal (a : A)
| Thrown (message : string).
Arguments Normal {A} a.
Arguments Thrown {A} message.

Definition bind {A B} (c : Completion A) (k : A -> Completion B) : Completion B :=
  match c with
  | Normal a => k a
  | Thrown m => Thrown m
  end.

(** What the host decides and the repository does not: how a number prints
    and the wording of its own [TypeError]s. *)
Record Host : Type := {
  NumberToString : float -> string;
  NullReadMessage : string;
  CannotConvertMessage : string
}.

Fixpoint lookup (key : string) (props : list (string * Json)) : option Json :=
  match props with
  | [] => None
  | (k, v) :: rest => if String.eqb k key then Some v else lookup key rest
  end.

Definition has_key (key : string) (props : list (string * Json)) : bool :=
  match lookup key props with Some _ => true | None => false end.

(** [obj.key = v] on a plain object: overwrite in place or append. *)
Fixpoint set_prop (key : string) (v : Json) (props : list (string * Json))
  : list (string * Json) :=
  match props with
  | [] => [(key, v)]
  | (k, old) :: rest =>
      if String.eqb k key then (k, v) :: rest else (k, old) :: set_prop key v rest
  end.

(** ToBoolean; [None] stands for [undefined]. *)
Definition ToBoolean (v : option Json) : bool :=
  match v with
  | None => false
  | Some JNull => false
  | Some (JBool b) => b
  | Some (JNumber f) => negb (is_zero f || is_nan f)
  | Some (JString s) => negb (String.eqb s "")
  | Some (JArray _) => true
  | Some (JObject _) => true
  end.

(** ToString.  An array joins its elements with commas, [null] elements
    printing as nothing; a plain object prints as [[object Object]] unless
    an own [toString] property (never callable in JSON) shadows the
    inherited method, in which case the conversion throws a [TypeError]. *)
Section ToString.
Variable host : Host.

Fixpoint ToString (v : Json) : Completion string :=
  match v with
  | JNull => Normal "null"
  | JBool true => Normal "true"
  | JBool false => Normal "false"
  | JNumber f => Normal (NumberToString host f)
  | JString s => Normal s
  | JArray elements =>
      (fix join (l : list Json) : Completion string :=
         match l with
         | [] => Normal ""
         | x :: rest =>
             bind (match x with JNull => Normal "" | _ => ToString x end)
                  (fun sx =>
                     match rest with
                     | [] => Normal sx
                     | _ :: _ => bind (join rest) (fun sr => Normal (sx ++ "," ++ sr))
                     end)
         end) elements
  | JObject props =>
      if has_key "toString" props
      then Thrown (CannotConvertMessage host)
      else Normal "[object Object]"
  end.

(** [errorData.detail]: reading a property of [null] throws; on every
    other value a name that is neither an own property nor defined on a
    built-in prototype reads as [undefined]. *)
Definition Get_detail (errorData : Json) : Completion (option Json) :=
  match errorData with
  | JNull => Thrown (NullReadMessage host)
  | JObject props => Normal (lookup "detail" props)
  | JBool _ | JNumber _ | JString _ | JArray _ => Normal None
  end.
End ToString.

End JS.

(* ================================================================= *)
(** ** The API client (frontend/src/api.js)

    The file exists in two versions with the same [analyzeProject]: the
    object [api] of frontend/src/api.js (lines 15-49) and the class
    [NexusApiClient], whose instance [nexusApi] [App.jsx] imports (lines
    58-89 of its file).  Line numbers below are those of api.js. *)

Module Api.
Import JS.

(** The arguments [fetch] is called with. *)
Record FetchCall : Type := {
  url : string;
  method : string;
  headers : list (string * string);
  body : Json   (* the object handed to [JSON.stringify] *)
}.

Inductive JsonResult : Type :=
| JsonValue (v : Json)
| JsonSyntaxError (message : string).

(** A transport response: [ok] is the host's reading of the status code. *)
Record Response : Type := {
  status : Z;
  statusText : string;
  json : JsonResult   (* what [response.json()] settles with *)
}.

Definition ok (response : Response) : bool :=
  ((200 <=? status response) && (status response <=? 299))%Z.

Inductive FetchResult : Type :=
| NetworkFailure (message : string)
| Responded (response : Response).

(** How the promise returned by [analyzeProject] settles. *)
Inductive Outcome : Type :=
| Resolved (result : Json)
| Rejected (message : string).


(** [string | null] as a JavaScript value. *)
Definition of_nullable (p : option string) : Json :=
  match p with
  | Some s => JString s
  | None => JNull
  end.

(** [needle] occurs somewhere in [s]. *)
Definition contains (needle s : string) : Prop :=
  exists before after, s = before ++ needle ++ after.

(** [import.meta.env.VITE_API_BASE_URL || 'http://localhost:8001']; api.js
    has the literal alone, which is [API_BASE None]. *)
Definition API_BASE (VITE_API_BASE_URL : option string) : string :=
  if ToBoolean (Some (of_nullable VITE_API_BASE_URL))
  then match VITE_API_BASE_URL with Some u => u | None => "" end
  else "http://localhost:8001".

(** Lines 16-23: the request body. *)
Definition requestBody (projectPath : string) (analysisPrompt : option string)
  : list (string * Json) :=
  let requestBody := [("project_path", JString projectPath)] in
  if ToBoolean (Some (of_nullable analysisPrompt))
  then set_prop "analysis_prompt" (of_nullable analysisPrompt) requestBody
  else requestBody.

(** Lines 15-31: everything up to the [await]; omitted arguments take the
    defaults ["."] and [null].  [baseUrl] is [this.baseUrl], or the constant
    [API_BASE] of api.js. *)
Definition analyzeProject_call (baseUrl : string)
    (projectPath : option string) (analysisPrompt : option (option string))
  : FetchCall :=
  let projectPath := match projectPath with Some p => p | None => "." end in
  let analysisPrompt := match analysisPrompt with Some a => a | None => None end in
  {| url := baseUrl ++ "/api/analyze-project";
     method := "POST";
     headers := [("Content-Type", "application/json")];
     body := JObject (requestBody projectPath analysisPrompt) |}.

Section WithHost.
Variable host : Host.

(** [response.json()] as a completion. *)
Definition response_json (response : Response) : Completion Json :=
  match json response with
  | JsonValue v => Normal v
  | JsonSyntaxError m => Thrown m
  end.

(** [throw new Error(errorMessage)]. *)
Definition throw_new_Error (errorMessage : Json) : Outcome :=
  match ToString host errorMessage with
  | Normal message => Rejected message
  | Thrown message => Rejected message
  end.

(** Lines 33-48: what runs once [fetch] has settled. *)
Definition analyzeProject_settle (r : FetchResult) : Outcome :=
  match r with
  | NetworkFailure message => Rejected message
  | Responded response =>
      if negb (ok response) then
        let errorMessage := JString "Failed to analyze project" in
        let errorMessage :=
          match
            bind (response_json response) (fun errorData =>
            bind (Get_detail host errorData) (fun detail =>
            Normal (if ToBoolean detail
                    then match detail with Some d => d | None => errorMessage end
                    else errorMessage)))
          with
          | Normal m => m
          | Thrown _ =>
              JString ("Failed to analyze project: " ++ statusText response)
          end in
        throw_new_Error errorMessage
      else
        match response_json response with
        | Normal result => Resolved result
        | Thrown message => Rejected message
        end
  end.
End WithHost.

End Api.

(* ================================================================= *)
(** ** The progress animation (frontend/src/components/AnalysisProgress.jsx) *)

Module Progress.
Import JS.

Record Stage : Type := {
  id : nat;
  name : string;
  description : string;
  duration : Z   (* milliseconds *)
}.

Definition stages : list Stage :=
  [ {| id := 1; name := "Stage 1: Collecting";
       description := "Reading project files and structure..."; duration := 12000 |};
    {| id := 2; name := "Stage 2: Ranking";
       description := "Analyzing and prioritizing files..."; duration := 12000 |};
    {| id := 3; name := "Stage 3: Generating";
       description := "Creating comprehensive report..."; duration := 12000 |} ].

(** The two arrow functions handed to the host, with what each captures. *)
Inductive Callback : Type :=
| ProgressTick (progressIncrement : float)   (* the [setInterval] arrow *)
| StageEnd (stageIndex : nat).               (* the [setTimeout] arrow *)

(** A pending host timer; [period] is set for an interval. *)
Record Timer : Type := {
  handle : nat;
  due : Z;
  period : option Z;
  callback : Callback
}.

(** A state update the component makes: what the spec calls [onTick]. *)
Inductive Tick : Type :=
| SetCurrentStage (stageIndex : nat)
| SetProgress (percent : float).

Record World : Type := {
  (* the host's clock and timer queue *)
  now : Z;
  nextHandle : nat;
  queue : list Timer;
  (* React state *)
  currentStage : nat;
  progress : float;
  (* the [let] variables of the effect *)
  stageTimer : option nat;
  progressTimer : option nat;
  progressValue : float;
  (* every state update so far, latest first *)
  ticks : list Tick
}.

Definition with_host (t : Z) (n : nat) (q : list Timer) (w : World) : World :=
  {| now := t; nextHandle := n; queue := q;
     currentStage := currentStage w; progress := progress w;
     stageTimer := stageTimer w; progressTimer := progressTimer w;
     progressValue := progressValue w; ticks := ticks w |}.

Definition with_vars (st pt : option nat) (pv : float) (w : World) : World :=
  {| now := now w; nextHandle := nextHandle w; queue := queue w;
     currentStage := currentStage w; progress := progress w;
     stageTimer := st; progressTimer := pt; progressValue := pv;
     ticks := ticks w |}.

Definition setCurrentStage (stageIndex : nat) (w : World) : World :=
  {| now := now w; nextHandle := nextHandle w; queue := queue w;
     currentStage := stageIndex; progress := progress w;
     stageTimer := stageTimer w; progressTimer := progressTimer w;
     progressValue := progressValue w;
     ticks := SetCurrentStage stageIndex :: ticks w |}.

Definition setProgress (percent : float) (w : World) : World :=
  {| now := now w; nextHandle := nextHandle w; queue := queue w;
     currentStage := currentStage w; progress := percent;
     stageTimer := stageTimer w; progressTimer := progressTimer w;
     progressValue := progressValue w;
     ticks := SetProgress percent :: ticks w |}.

(** *** Host timers *)

Definition add_timer (cb : Callback) (delay : Z) (p : option Z) (w : World)
  : nat * World :=
  let h := nextHandle w in
  (h, with_host (now w) (S h)
        (queue w ++ [ {| handle := h; due := now w + delay;
                         period := p; callback := cb |} ]) w).

Definition setInterval (cb : Callback) (delay : Z) (w : World) : nat * World :=
  add_timer cb delay (Some delay) w.

Definition setTimeout (cb : Callback) (delay : Z) (w : World) : nat * World :=
  add_timer cb delay None w.

Definition drop (h : nat) (q : list Timer) : list Timer :=
  filter (fun t => negb (Nat.eqb (handle t) h)) q.

(** [clearTimeout] and [clearInterval] share one pool of handles; an
    [undefined] or stale handle clears nothing. *)
Definition clearTimer (h : option nat) (w : World) : World :=
  match h with
  | None => w
  | Some n => with_host (now w) (nextHandle w) (drop n (queue w)) w
  end.

Definition clearTimeout := clearTimer.
Definition clearInterval := clearTimer.

(** *** Lines 19-48 *)

(** [stages[stageIndex].duration]; [startStage] reads it in range only. *)
Definition stageDuration (stageIndex : nat) : Z :=
  match nth_error stages stageIndex with
  | Some s => duration s
  | None => 0
  end.

(** [startStage] below [stages.length]: lines 28-47. *)
Definition startStage_in_range (stageIndex : nat) (w : World) : World :=
  let w := setCurrentStage stageIndex w in
  let w := with_vars (stageTimer w) (progressTimer w) 0%float w in
  let w := setProgress 0%float w in
  let stageDuration := stageDuration stageIndex in
  let progressIncrement := (100 / (float_of_Z stageDuration / 100))%float in
  let '(h, w) := setInterval (ProgressTick progressIncrement) 100 w in
  let w := with_vars (stageTimer w) (Some h) (progressValue w) w in
  let '(h, w) := setTimeout (StageEnd stageIndex) stageDuration w in
  with_vars (Some h) (progressTimer w) (progressValue w) w.

(** [startStage]: past the last stage it resets and calls itself with 0
    (lines 20-26), which is in range. *)
Definition startStage (stageIndex : nat) (w : World) : World :=
  if Nat.leb (List.length stages) stageIndex then
    let w := setCurrentStage 0 w in
    let w := setProgress 0%float w in
    startStage_in_range 0 w
  else startStage_in_range stageIndex w.

(** The bodies of the two arrows (lines 35-42 and 44-47). *)
Definition run_callback (cb : Callback) (w : World) : World :=
  match cb with
  | ProgressTick progressIncrement =>
      let w := with_vars (stageTimer w) (progressTimer w)
                 (progressValue w + progressIncrement)%float w in
      let w :=
        if (100 <=? progressValue w)%float then
          let w := with_vars (stageTimer w) (progressTimer w) 100%float w in
          clearInterval (progressTimer w) w
        else w in
      setProgress (Math_min (progressValue w) 100%float) w
  | StageEnd stageIndex =>
      let w := clearInterval (progressTimer w) w in
      startStage (stageIndex + 1) w
  end.

(** The effect (lines 14-50) on a fresh instance, and its cleanup (52-55). *)
Definition mount (w : World) : World :=
  startStage 0
    {| now := now w; nextHandle := nextHandle w; queue := queue w;
       currentStage := 0; progress := 0%float;
       stageTimer := None; progressTimer := None; progressValue := 0%float;
       ticks := ticks w |}.

Definition cleanup (w : World) : World :=
  let w := clearTimeout (stageTimer w) w in
  clearInterval (progressTimer w) w.

(** *** The host firing timers *)

(** After a timer fires, an interval is put back one period later and a
    timeout is gone. *)
Definition requeue (t : Timer) (q : list Timer) : list Timer :=
  match period t with
  | Some p =>
      map (fun t' =>
             if Nat.eqb (handle t') (handle t)
             then {| handle := handle t'; due := due t' + p;
                     period := period t'; callback := callback t' |}
             else t') q
  | None => drop (handle t) q
  end.

Definition fire (t : Timer) (w : World) : World :=
  run_callback (callback t)
    (with_host (due t) (nextHandle w) (requeue t (queue w)) w).

(** A timer may fire when none is due earlier; timers due at the same
    instant fire in either order. *)
Definition earliest (q : list Timer) (t : Timer) : Prop :=
  In t q /\ forall t', In t' q -> (due t <= due t')%Z.

Inductive step : World -> World -> Prop :=
| step_fire w t : earliest (queue w) t -> step w (fire t w).

(** Everything the animation can reach after being mounted on an idle host. *)
Inductive reachable (t0 : Z) : World -> Prop :=
| reach_mount w0 : queue w0 = [] -> now w0 = t0 -> reachable t0 (mount w0)
| reach_step w w' : reachable t0 w -> step w w' -> reachable t0 w'.

(** A host on which nothing has been scheduled yet. *)
Definition idle_host (t : Z) : World :=
  {| now := t; nextHandle := 0; queue := [];
     currentStage := 0; progress := 0%float;
     stageTimer := None; progressTimer := None; progressValue := 0%float;
     ticks := [] |}.

(** The host's choice made executable: the first timer of the queue among
    those due earliest. *)
Fixpoint first_due (q : list Timer) : option Timer :=
  match q with
  | [] => None
  | t :: rest =>
      match first_due rest with
      | Some t' => if (due t' <? due t)%Z then Some t' else Some t
      | None => Some t
      end
  end.

Fixpoint run (fuel : nat) (w : World) : World :=
  match fuel with
  | O => w
  | S fuel' =>
      match first_due (queue w) with
      | Some t => run fuel' (fire t w)
      | None => w
      end
  end.

(** [progressValue] after [j] ticks of a stage. *)
Definition progressIncrement : float := (100 / (float_of_Z 12000 / 100))%float.

Fixpoint after_ticks (j : nat) : float :=
  match j with
  | O => 0%float
  | S j' => (after_ticks j' + progressIncrement)%float
  end.

(** *** Where the animation stands

    [k] stages have ended and [j] ticks of the current one have fired:
    the clock, the two state cells, the effect's variables and the two
    timers the host holds. *)

Definition instant (t0 : Z) (k j : nat) : Z :=
  (t0 + 12000 * Z.of_nat k + 100 * Z.of_nat j)%Z.

Definition tick_timer (t0 : Z) (k j h : nat) : Timer :=
  {| handle := h; due := instant t0 k (S j); period := Some 100%Z;
     callback := ProgressTick progressIncrement |}.

Definition stage_timer (t0 : Z) (k h : nat) : Timer :=
  {| handle := h; due := instant t0 (S k) 0; period := None;
     callback := StageEnd (k mod 3) |}.

Definition at_offset (t0 : Z) (k j : nat) (w : World) : Prop :=
  exists h,
    now w = instant t0 k j
    /\ currentStage w = k mod 3
    /\ progress w = after_ticks j
    /\ progressValue w = after_ticks j
    /\ progressTimer w = Some h
    /\ stageTimer w = Some (S h)
    /\ queue w = [tick_timer t0 k j h; stage_timer t0 k (S h)].

(** What the guard of line 37 and [Math.min] see after [j] ticks. *)
Definition below_100 (j : nat) : bool :=
  negb (is_nan (after_ticks j))
  && (after_ticks j <? 100)%float
  && negb (100 <=? after_ticks j)%float
  && (0 <=? after_ticks j)%float
  && (after_ticks j <=? 100)%float
  && (after_ticks j <? after_ticks (S j))%float.

(** The world [startStage] leaves when it finds no timer pending. *)
Definition started (stageIndex : nat) (log : list Tick) (w : World) : World :=
  {| now := now w; nextHandle := S (S (nextHandle w));
     queue :=
       [ {| handle := nextHandle w; due := now w + 100; period := Some 100%Z;
            callback := ProgressTick progressIncrement |};
         {| handle := S (nextHandle w); due := now w + 12000; period := None;
            callback := StageEnd stageIndex |} ];
     currentStage := stageIndex; progress := 0%float;
     stageTimer := Some (S (nextHandle w));
     progressTimer := Some (nextHandle w);
     progressValue := 0%float;
     ticks := log |}.

(** Any number of host steps. *)
Inductive steps : World -> World -> Prop :=
| steps_refl w : steps w w
| steps_next w w' w'' : step w w' -> steps w' w'' -> steps w w''.

End Progress.

(* ================================================================= *)
(** ** The session (frontend/src/App.jsx) *)

Module App.
Import JS Api.

(** The five [useState] cells. *)
Record State : Type := {
  isAnalyzing : bool;
  analysisResult : Json;            (* [null] until a call resolves *)
  analysisError : option string;    (* [null] or an [error.message] *)
  projectPath : string;
  analysisPrompt : string
}.

Definition SAMPLE_PROMPT : string :=
  "Analyze the codebase focusing strictly on security vulnerabilities (improper handling of API keys, injection risks) and provide a prioritized list of refactoring suggestions.".

Record World : Type := {
  state : State;
  pending : list FetchCall;   (* fetches awaiting settlement, oldest first *)
  sent : list FetchCall;      (* every fetch ever issued, latest first *)
  mounted : bool;             (* is [<AnalysisProgress />] in the tree *)
  sim : Progress.World        (* its instance and the host's timers *)
}.

Definition with_state (s : State) (w : World) : World :=
  {| state := s; pending := pending w; sent := sent w;
     mounted := mounted w; sim := sim w |}.

Definition setIsAnalyzing (b : bool) (w : World) : World :=
  with_state {| isAnalyzing := b;
                analysisResult := analysisResult (state w);
                analysisError := analysisError (state w);
                projectPath := projectPath (state w);
                analysisPrompt := analysisPrompt (state w) |} w.

Definition setAnalysisResult (r : Json) (w : World) : World :=
  with_state {| isAnalyzing := isAnalyzing (state w);
                analysisResult := r;
                analysisError := analysisError (state w);
                projectPath := projectPath (state w);
                analysisPrompt := analysisPrompt (state w) |} w.

Definition setAnalysisError (e : option string) (w : World) : World :=
  with_state {| isAnalyzing := isAnalyzing (state w);
                analysisResult := analysisResult (state w);
                analysisError := e;
                projectPath := projectPath (state w);
                analysisPrompt := analysisPrompt (state w) |} w.

Definition setProjectPath (p : string) (w : World) : World :=
  with_state {| isAnalyzing := isAnalyzing (state w);
                analysisResult := analysisResult (state w);
                analysisError := analysisError (state w);
                projectPath := p;
                analysisPrompt := analysisPrompt (state w) |} w.

Definition setAnalysisPrompt (p : string) (w : World) : World :=
  with_state {| isAnalyzing := isAnalyzing (state w);
                analysisResult := analysisResult (state w);
                analysisError := analysisError (state w);
                projectPath := projectPath (state w);
                analysisPrompt := p |} w.

(** [analysisPrompt || null]. *)
Definition or_null (s : string) : option string :=
  if ToBoolean (Some (JString s)) then Some s else None.

(** *** What is on screen (lines 47-141) *)

Record View : Type := {
  analyzeDisabled : bool;   (* the sidebar button, [disabled={isLoading}] *)
  showProgress : bool;      (* [isAnalyzing && <AnalysisProgress />] *)
  showError : bool;         (* the error container with "Try Again" *)
  showResults : bool;       (* [<AnalysisResults />] *)
  showWelcome : bool
}.

Definition render (s : State) : View :=
  let error := ToBoolean (Some (of_nullable (analysisError s))) in
  let result := ToBoolean (Some (analysisResult s)) in
  {| analyzeDisabled := isAnalyzing s;
     showProgress := isAnalyzing s;
     showError := negb (isAnalyzing s) && error;
     showResults := negb (isAnalyzing s) && negb error && result;
     showWelcome := negb (isAnalyzing s) && negb error && negb result |}.

(** The spec's four session states, read off the four branches of the view. *)
Inductive SessionState : Type :=
| Idle
| Running
| Succeeded (result : Json)
| Failed (error : string).

Definition sessionState (s : State) : SessionState :=
  let v := render s in
  if showProgress v then Running
  else if showError v then
    Failed (match analysisError s with Some m => m | None => "" end)
  else if showResults v then Succeeded (analysisResult s)
  else Idle.

(** React committing a render: the progress component is mounted when it
    enters the tree and cleaned up when it leaves. *)
Definition commit (w : World) : World :=
  match showProgress (render (state w)), mounted w with
  | true, false =>
      {| state := state w; pending := pending w; sent := sent w;
         mounted := true; sim := Progress.mount (sim w) |}
  | false, true =>
      {| state := state w; pending := pending w; sent := sent w;
         mounted := false; sim := Progress.cleanup (sim w) |}
  | _, _ => w
  end.

Section WithEnv.
Variable VITE_API_BASE_URL : option string.

(** [api.analyzeProject(projectPath, analysisPrompt || null)] up to its
    [await]: the request the two inputs stand for at this moment. *)
Definition current_request (s : State) : FetchCall :=
  analyzeProject_call (API_BASE VITE_API_BASE_URL)
    (Some (projectPath s)) (Some (or_null (analysisPrompt s))).

(** [fetch] called: the request is on the wire. *)
Definition issue (call : FetchCall) (w : World) : World :=
  {| state := state w; pending := pending w ++ [call]; sent := call :: sent w;
     mounted := mounted w; sim := sim w |}.

(** Lines 25-32: [handleAnalyzeClick] up to its [await]. *)
Definition handleAnalyzeClick (w : World) : World :=
  let w := setIsAnalyzing true w in
  let w := setAnalysisError None w in
  let w := setAnalysisResult JNull w in
  issue (current_request (state w)) w.

(** Lines 32-41: the rest of the handler, once the call has settled. *)
Definition handleAnalyzeClick_resume (o : Outcome) (w : World) : World :=
  let w :=
    match o with
    | Resolved result => setAnalysisResult result w
    | Rejected message => setAnalysisError (Some message) w
    end in
  setIsAnalyzing false w.

Fixpoint remove_nth {A} (i : nat) (l : list A) : list A :=
  match l, i with
  | [], _ => []
  | _ :: rest, O => rest
  | x :: rest, S i' => x :: remove_nth i' rest
  end.

(** The promise awaited for the [i]-th pending fetch settles with [o]
    (for a transport result [r], [o] is [analyzeProject_settle host r]). *)
Definition settle (i : nat) (o : Outcome) (w : World) : World :=
  match nth_error (pending w) i with
  | None => w
  | Some _ =>
      let w := {| state := state w; pending := remove_nth i (pending w);
                  sent := sent w; mounted := mounted w; sim := sim w |} in
      commit (handleAnalyzeClick_resume o w)
  end.

(** *** What the user can do *)

Inductive UserEvent : Type :=
| ClickAnalyze                    (* the sidebar button *)
| ClickRetry                      (* "Try Again" *)
| ChangePath (value : string)
| ChangePrompt (value : string)
| UseSamplePrompt.

(** A disabled button delivers no click, and a button that is not
    rendered cannot be clicked. *)
Definition user (e : UserEvent) (w : World) : World :=
  match e with
  | ClickAnalyze =>
      if analyzeDisabled (render (state w)) then w
      else commit (handleAnalyzeClick w)
  | ClickRetry =>
      if showError (render (state w)) then commit (handleAnalyzeClick w)
      else w
  | ChangePath value => setProjectPath value w
  | ChangePrompt value => setAnalysisPrompt value w
  | UseSamplePrompt => setAnalysisPrompt SAMPLE_PROMPT w
  end.

(** The spec's [start] and [retry]. *)
Definition start := user ClickAnalyze.
Definition retry := user ClickRetry.

Inductive step : World -> World -> Prop :=
| step_user e w : step w (user e w)
| step_settle i o w : i < List.length (pending w) -> step w (settle i o w)
| step_timer w s' :
    Progress.step (sim w) s' ->
    step w {| state := state w; pending := pending w; sent := sent w;
              mounted := mounted w; sim := s' |}.

Definition init (t0 : Z) : World :=
  {| state := {| isAnalyzing := false; analysisResult := JNull;
                 analysisError := None; projectPath := ".";
                 analysisPrompt := "" |};
     pending := []; sent := []; mounted := false;
     sim := Progress.idle_host t0 |}.

Inductive reachable : World -> Prop :=
| reach_init t0 : reachable (init t0)
| reach_step w w' : reachable w -> step w w' -> reachable w'.

(** The simulator is active while the host holds a timer of its. *)
Definition simulator_active (w : World) : bool :=
  match Progress.queue (sim w) with
  | [] => false
  | _ :: _ => true
  end.
End WithEnv.

(** What holds of every world the session can reach: the progress
    component is in the tree exactly while analysing; while analysing one
    request is in flight, nothing is stored and the animation runs; otherwise
    nothing is in flight, no timer is left and at most one of result and
    error is stored. *)
Definition consistent (w : World) : Prop :=
  mounted w = isAnalyzing (state w)
  /\ (isAnalyzing (state w) = true ->
      analysisResult (state w) = JNull
      /\ analysisError (state w) = None
      /\ (exists call, pending w = [call] /\ hd_error (sent w) = Some call)
      /\ (exists t0, Progress.reachable t0 (sim w)))
  /\ (isAnalyzing (state w) = false ->
      pending w = []
      /\ Progress.queue (sim w) = []
      /\ (analysisResult (state w) = JNull \/ analysisError (state w) = None)).

End App.

(* ================================================================= *)
(** ** Concrete hosts, responses and sessions *)

Module Examples.
Import JS Api App.

(** A host with V8's wording.  No example below prints a number, so the
    printer is left trivial. *)
Definition example_host : Host :=
  {| NumberToString := fun _ => "0";
     NullReadMessage := "Cannot read properties of null (reading 'detail')";
     CannotConvertMessage := "Cannot convert object to primitive value" |}.

(** [500 {"detail": "boom"}]. *)
Definition boom : Response :=
  {| status := 500; statusText := "Internal Server Error";
     json := JsonValue (JObject [("detail", JString "boom")]) |}.

(** A request-validation failure, whose [detail] is a list of records. *)
Definition validation_detail : Json :=
  JArray [JObject [("loc", JArray [JString "body"; JString "project_path"]);
                   ("msg", JString "Field required");
                   ("type", JString "missing")]].

Definition validation_error : Response :=
  {| status := 422; statusText := "Unprocessable Entity";
     json := JsonValue (JObject [("detail", validation_detail)]) |}.

(** [502] with a JSON body that has no [detail]. *)
Definition no_detail : Response :=
  {| status := 502; statusText := "Bad Gateway";
     json := JsonValue (JObject [("error", JString "upstream")]) |}.

(** [500] with the JSON body [null]. *)
Definition null_error : Response :=
  {| status := 500; statusText := "Internal Server Error";
     json := JsonValue JNull |}.





(** A session with the base URL unset: the button is clicked, the call
    fails, the user types another path. *)
Definition running : World := start None (init 0).

Definition failed : World := settle 0 (Rejected "Failed to fetch") running.

Definition edited : World := user None (ChangePath "src") failed.

End Examples.

(* ================================================================= *)
(** ** What the progress component draws, and a host that runs late *)

Module ProgressView.
Import JS Progress.





(** A host under load fires a pending timer late: any pending timer may be
    the next to fire, whatever the due times say. *)
Inductive step_late : World -> World -> Prop :=
| step_late_fire w t : In t (queue w) -> step_late w (fire t w).

Inductive reachable_late : World -> Prop :=
| late_mount w0 : queue w0 = [] -> reachable_late (mount w0)
| late_step w w' : reachable_late w -> step_late w w' -> reachable_late w'.

(** The interval of a stage and its timeout, whenever they are due. *)
Definition interval_of (h : nat) (d : Z) : Timer :=
  {| handle := h; due := d; period := Some 100%Z;
     callback := ProgressTick progressIncrement |}.

Definition timeout_of (h : nat) (d : Z) (stageIndex : nat) : Timer :=
  {| handle := h; due := d; period := None; callback := StageEnd stageIndex |}.

(** Where a stage can stand on such a host: [j] ticks in with both timers
    pending, or clamped at 100 with the interval cleared by its own tick. *)
Definition ticking (w : World) : Prop :=
  exists h j d1 d2,
    j <= 120
    /\ progress w = after_ticks j
    /\ progressValue w = after_ticks j
    /\ progressTimer w = Some h
    /\ stageTimer w = Some (S h)
    /\ queue w = [interval_of h d1; timeout_of (S h) d2 (currentStage w)].

Definition clamped (w : World) : Prop :=
  exists h d2,
    progress w = 100%float
    /\ progressValue w = 100%float
    /\ progressTimer w = Some h
    /\ stageTimer w = Some (S h)
    /\ queue w = [timeout_of (S h) d2 (currentStage w)].

Definition in_stage (w : World) : Prop :=
  currentStage w < 3 /\ (ticking w \/ clamped w).

(** A late host made executable: the timer that has waited longest in the
    queue fires, so the timeout of a stage waits for as long as its interval
    keeps itself alive. *)
Fixpoint run_late (fuel : nat) (w : World) : World :=
  match fuel with
  | O => w
  | S fuel' =>
      match queue w with
      | t :: _ => run_late fuel' (fire t w)
      | [] => w
      end
  end.

End ProgressView.

(* ================================================================= *)
(** ** What the pages show of a result (AnalysisSidebar.jsx, FileMetadata.jsx,
       AnalysisResults.jsx, and line 45 of App.jsx) *)

Module Pages.
Import JS Api App.

(** [v?.key], and [v.key] on a value known not to be [null], for a [key] that
    no built-in prototype defines: [None] is [undefined]. *)
Definition GetOpt (key : string) (v : option Json) : option Json :=
  match v with
  | None => None
  | Some JNull => None
  | Some (JObject props) => lookup key props
  | Some (JBool _) | Some (JNumber _) | Some (JString _) | Some (JArray _) => None
  end.

(** [v || null]. *)
Definition or_null_value (v : option Json) : Json :=
  if ToBoolean v then match v with Some x => x | None => JNull end else JNull.

(** App.jsx line 45: [analysisResult?.metadata?.file_analysis || null]. *)
Definition fileMetadata (s : State) : Json :=
  or_null_value
    (GetOpt "file_analysis" (GetOpt "metadata" (Some (analysisResult s)))).




(** FileMetadata.jsx lines 5-9 and the three values it prints. *)
Definition placeholder : Json :=
  JObject [("files_read", JNumber 0); ("total_size_mb", JString "0.00");
           ("files_skipped", JNumber 0)].

Record Summary : Type := {
  files_read : option Json;
  total_size_mb : option Json;
  files_skipped : option Json
}.

Definition FileMetadata (metadata : Json) : Summary :=
  let data := if ToBoolean (Some metadata) then metadata else placeholder in
  {| files_read := GetOpt "files_read" (Some data);
     total_size_mb := GetOpt "total_size_mb" (Some data);
     files_skipped := GetOpt "files_skipped" (Some data) |}.

(** AnalysisResults.jsx: the props, the one state cell and the panels. *)
Record Props : Type := {
  stage1 : option Json;
  stage2 : option Json;
  stage3 : option Json;
  metadata : option Json
}.


Inductive Panel : Type :=
| Data (v : option Json)   (* the value handed to [JSON.stringify] *)
| Empty.                   (* "No Stage ... data available yet." *)

Record Results : Type := {
  summary : Summary;
  panel1 : option Panel;   (* [None]: the panel is not drawn *)
  panel2 : option Panel;
  panel3 : option Panel
}.

Definition panel (activeTab name : string) (stage : option Json) : option Panel :=
  if String.eqb activeTab name
  then Some (if ToBoolean stage then Data stage else Empty)
  else None.

Definition AnalysisResults (props : Props) (activeTab : string) : Results :=
  let fileMetadata := or_null_value (GetOpt "file_analysis" (metadata props)) in
  {| summary := FileMetadata fileMetadata;
     panel1 := panel activeTab "stage1" (stage1 props);
     panel2 := panel activeTab "stage2" (stage2 props);
     panel3 := panel activeTab "stage3" (stage3 props) |}.

(** The three tab buttons. *)
Inductive Tab : Type := Tab1 | Tab2 | Tab3.

Definition tab_name (t : Tab) : string :=
  match t with
  | Tab1 => "stage1"
  | Tab2 => "stage2"
  | Tab3 => "stage3"
  end.

(** [useState('stage1')] followed by the clicks, in order. *)
Definition activeTab_after (clicks : list Tab) : string :=
  fold_left (fun _ t => tab_name t) clicks "stage1".

Definition panels (r : Results) : list (option Panel) :=
  [panel1 r; panel2 r; panel3 r].

Definition drawn (p : option Panel) : bool :=
  match p with Some _ => true | None => false end.

Definition stage_of (t : Tab) (props : Props) : option Json :=
  match t with
  | Tab1 => stage1 props
  | Tab2 => stage2 props
  | Tab3 => stage3 props
  end.

Definition panel_of (t : Tab) (r : Results) : option Panel :=
  match t with
  | Tab1 => panel1 r
  | Tab2 => panel2 r
  | Tab3 => panel3 r
  end.

End Pages.

(* ================================================================= *)
(** ** Provider settings: [getSettings], [updateSettings] (the class version
       of api.js, lines 102-127) and SettingsPanel.jsx *)

Module Settings.
Import JS Api.

(** The arguments of a [fetch] that may have no body. *)
Record Request : Type := {
  r_url : string;
  r_method : string;
  r_headers : list (string * string);
  r_body : option Json
}.

(** Line 103: [fetch(`${this.baseUrl}/api/settings`)]. *)
Definition getSettings_call (baseUrl : string) : Request :=
  {| r_url := baseUrl ++ "/api/settings"; r_method := "GET";
     r_headers := []; r_body := None |}.

(** Lines 104-107. *)
Definition getSettings_settle (r : FetchResult) : Outcome :=
  match r with
  | NetworkFailure message => Rejected message
  | Responded response =>
      if negb (ok response)
      then Rejected ("Failed to fetch settings: " ++ statusText response)
      else match json response with
           | JsonValue v => Resolved v
           | JsonSyntaxError message => Rejected message
           end
  end.

(** Lines 111-115: the body is [JSON.stringify({ settings })]. *)
Definition updateSettings_call (baseUrl : string) (settings : Json) : Request :=
  {| r_url := baseUrl ++ "/api/settings"; r_method := "POST";
     r_headers := [("Content-Type", "application/json")];
     r_body := Some (JObject [("settings", settings)]) |}.

Section WithHost.
Variable host : Host.

(** Lines 116-126.  The template literal converts [errorDetail] to a string. *)
Definition updateSettings_settle (r : FetchResult) : Outcome :=
  match r with
  | NetworkFailure message => Rejected message
  | Responded response =>
      if negb (ok response) then
        let errorDetail := JString "Unknown error during update." in
        let errorDetail :=
          match
            bind (match json response with
                  | JsonValue v => Normal v
                  | JsonSyntaxError m => Thrown m
                  end) (fun errorData =>
            bind (Get_detail host errorData) (fun detail =>
            Normal (if ToBoolean detail
                    then match detail with Some d => d | None => errorDetail end
                    else errorDetail)))
          with
          | Normal d => d
          | Thrown _ => JString (statusText response)
          end in
        match ToString host errorDetail with
        | Normal s => Rejected ("Failed to update settings: " ++ s)
        | Thrown message => Rejected message
        end
      else
        match json response with
        | JsonValue v => Resolved v
        | JsonSyntaxError message => Rejected message
        end
  end.
End WithHost.

(** [hay.includes(needle)]. *)
Fixpoint includes (needle hay : string) : bool :=
  if String.prefix needle hay then true
  else match hay with
       | EmptyString => false
       | String _ rest => includes needle rest
       end.

(** [settings.llm_provider]: reading a property of [null] throws ([None]);
    otherwise the own property, or [undefined]. *)
Definition Get_llm_provider (settings : Json) : option (option Json) :=
  match settings with
  | JNull => None
  | JObject props => Some (lookup "llm_provider" props)
  | JBool _ | JNumber _ | JString _ | JArray _ => Some None
  end.

(** What lines 19-20 take from the outcome of [getSettings]: the provider to
    show, or [None] when the [catch] of lines 21-24 runs instead. *)
Definition loaded (o : Outcome) : option Json :=
  match o with
  | Resolved settings =>
      match Get_llm_provider settings with
      | Some llm_provider =>
          Some (if ToBoolean llm_provider
                then match llm_provider with
                     | Some p => p
                     | None => JString "openrouter"
                     end
                else JString "openrouter")
      | None => None
      end
  | Rejected _ => None
  end.

(** *** SettingsPanel.jsx *)

(** The three [useState] cells.  [provider] holds whatever the backend sent
    until the select changes it. *)
Record State : Type := {
  provider : Json;
  loading : bool;
  status : string
}.

(** What a pending call resumes: [fetchSettings] or [handleSave]. *)
Inductive Call : Type :=
| Load (request : Request)
| Save (request : Request).

Definition request_of (c : Call) : Request :=
  match c with Load r => r | Save r => r end.

Record World : Type := {
  state : State;
  pending : list Call;     (* calls awaiting settlement *)
  sent : list Request      (* every request issued, latest first *)
}.

Definition setProvider (p : Json) (w : World) : World :=
  {| state := {| provider := p; loading := loading (state w);
                 status := status (state w) |};
     pending := pending w; sent := sent w |}.

Definition setLoading (b : bool) (w : World) : World :=
  {| state := {| provider := provider (state w); loading := b;
                 status := status (state w) |};
     pending := pending w; sent := sent w |}.

Definition setStatus (m : string) (w : World) : World :=
  {| state := {| provider := provider (state w); loading := loading (state w);
                 status := m |};
     pending := pending w; sent := sent w |}.

Definition issue (c : Call) (w : World) : World :=
  {| state := state w; pending := pending w ++ [c];
     sent := request_of c :: sent w |}.

Section Panel.
Variable baseUrl : string.

(** Lines 15-19: [fetchSettings] up to its [await]. *)
Definition fetchSettings (w : World) : World :=
  let w := setLoading true w in
  let w := setStatus "" w in
  issue (Load (getSettings_call baseUrl)) w.

(** Lines 19-27. *)
Definition fetchSettings_resume (o : Outcome) (w : World) : World :=
  let failed w :=
    let w := setStatus "Error loading settings." w in
    setProvider (JString "openrouter") w in
  let w :=
    match o with
    | Resolved settings =>
        match Get_llm_provider settings with
        | Some llm_provider =>
            setProvider (if ToBoolean llm_provider
                         then match llm_provider with
                              | Some p => p
                              | None => JString "openrouter"
                              end
                         else JString "openrouter") w
        | None => failed w
        end
    | Rejected _ => failed w
    end in
  setLoading false w.

(** Lines 34-38: [handleSave] up to its [await]. *)
Definition handleSave (w : World) : World :=
  let w := setLoading true w in
  let w := setStatus "Saving..." w in
  issue (Save (updateSettings_call baseUrl
                 (JObject [("llm_provider", provider (state w))]))) w.

(** Lines 38-45. *)
Definition handleSave_resume (o : Outcome) (w : World) : World :=
  let w :=
    match o with
    | Resolved _ =>
        setStatus "Settings saved successfully! Backend provider switched." w
    | Rejected message => setStatus ("Error saving: " ++ message) w
    end in
  setLoading false w.

(** Lines 10-13 on the initial state of lines 6-8. *)
Definition mounted : World :=
  fetchSettings
    {| state := {| provider := JString ""; loading := true; status := "" |};
       pending := []; sent := [] |}.

(** Lines 53-79. *)
Inductive View : Type :=
| LoadingSettings
| Controls (selected : Json)            (* [value={provider}] *)
           (saveDisabled : bool)
           (message : option (string * bool)).
                                        (* the status and whether its class is [error] *)

Definition render (s : State) : View :=
  if loading s then LoadingSettings
  else Controls (provider s)
         (loading s || includes "Saving" (status s))
         (if negb (String.eqb (status s) "")
          then Some (status s, includes "Error" (status s))
          else None).

Definition save_enabled (s : State) : bool :=
  match render s with
  | Controls _ saveDisabled _ => negb saveDisabled
  | LoadingSettings => false
  end.

(** The two options of the select (lines 48-51). *)
Inductive ProviderOption : Type := Openrouter | Ollama.

Definition option_value (o : ProviderOption) : string :=
  match o with
  | Openrouter => "openrouter"
  | Ollama => "ollama"
  end.

Inductive UserEvent : Type :=
| ChangeProvider (o : ProviderOption)
| ClickSave.

(** The controls exist only when the panel is not loading, and a disabled
    button delivers no click. *)
Definition user (e : UserEvent) (w : World) : World :=
  match e, render (state w) with
  | ChangeProvider o, Controls _ _ _ => setProvider (JString (option_value o)) w
  | ClickSave, Controls _ false _ => handleSave w
  | _, _ => w
  end.

Fixpoint remove_nth {A} (i : nat) (l : list A) : list A :=
  match l, i with
  | [], _ => []
  | _ :: rest, O => rest
  | x :: rest, S i' => x :: remove_nth i' rest
  end.

(** The [i]-th pending call settles with [o]. *)
Definition settle (i : nat) (o : Outcome) (w : World) : World :=
  match nth_error (pending w) i with
  | None => w
  | Some c =>
      let w := {| state := state w; pending := remove_nth i (pending w);
                  sent := sent w |} in
      match c with
      | Load _ => fetchSettings_resume o w
      | Save _ => handleSave_resume o w
      end
  end.

Inductive step : World -> World -> Prop :=
| step_user e w : step w (user e w)
| step_settle i o w : i < List.length (pending w) -> step w (settle i o w).

Inductive reachable : World -> Prop :=
| reach_mounted : reachable mounted
| reach_step w w' : reachable w -> step w w' -> reachable w'.

(** Any number of steps from a world on. *)
Inductive steps : World -> World -> Prop :=
| steps_refl w : steps w w
| steps_next w w' w'' : step w w' -> steps w' w'' -> steps w w''.
End Panel.

(** What holds of every world the panel can reach. *)
Definition consistent (w : World) : Prop :=
  (loading (state w) = true -> exists c, pending w = [c])
  /\ (loading (state w) = false -> pending w = []).

End Settings.

(* ================================================================= *)
(** ** The page as a whole (App.jsx with the panel of line 56) *)

Module Page.
Import JS Api.

(** [App] renders [<SettingsPanel />] unconditionally, so the page is the
    session together with the panel; both talk through the one client
    [nexusApi], built on [API_BASE]. *)
Record World : Type := {
  session : App.World;
  settings : Settings.World
}.

Section WithEnv.
Variable VITE_API_BASE_URL : option string.

(** The first render: the session in its initial state, the panel with its
    mount effect run. *)
Definition mount (t0 : Z) : World :=
  {| session := App.init t0;
     settings := Settings.mounted (API_BASE VITE_API_BASE_URL) |}.

Inductive step : World -> World -> Prop :=
| step_session w s' :
    App.step VITE_API_BASE_URL (session w) s' ->
    step w {| session := s'; settings := settings w |}
| step_settings w p' :
    Settings.step (API_BASE VITE_API_BASE_URL) (settings w) p' ->
    step w {| session := session w; settings := p' |}.

Inductive reachable : World -> Prop :=
| reach_mount t0 : reachable (mount t0)
| reach_step w w' : reachable w -> step w w' -> reachable w'.
End WithEnv.



End Page.

(* ================================================================= *)
(** ** The git helper scripts (git_safe_commit.sh, git_revert_last_commit.sh,
       git_discard_local_changes.sh) *)

Module Scripts.

(** What a script does that can be seen from outside. *)
Inductive Action : Type :=
| Echo (line : string)
| Git (args : list string).

Record Run : Type := {
  actions : list Action;   (* in the order they happen *)
  exit_status : nat
}.

(** The git commands among the actions. *)
Fixpoint commands (l : list Action) : list (list string) :=
  match l with
  | [] => []
  | Git args :: rest => args :: commands rest
  | Echo _ :: rest => commands rest
  end.

(** A text between double quotes, as [\"...\"] prints it. *)
Definition quoted (s : string) : string :=
  String (ascii_of_nat 34) s ++ String (ascii_of_nat 34) "".

(** [$1]: empty when the script is given no argument. *)
Definition arg1 (argv : list string) : string := nth 0 argv "".

(** [[ -z "$1" ]]. *)
Definition is_empty (s : string) : bool := String.eqb s "".

Section WithGit.
(** The exit status git returns for a command line. *)
Variable git : list string -> nat.

(** git_safe_commit.sh. *)
Definition git_safe_commit (argv : list string) : Run :=
  if is_empty (arg1 argv) then
    {| actions := [Echo "ERROR: Please provide a commit message.";
                   Echo ("Usage: ./git_safe_commit.sh " ++ quoted "Your message here")];
       exit_status := 1 |}
  else
    let start :=
      [Echo "--- 🛡️ Starting Safe Commit and Push ---";
       Git ["add"; "-A"];
       Echo "Committing changes...";
       Git ["commit"; "-m"; arg1 argv]] in
    if Nat.eqb (git ["commit"; "-m"; arg1 argv]) 0 then
      {| actions := start ++
                    [Echo "Pushing commit to remote...";
                     Git ["push"];
                     Echo "Pushing new tags...";
                     Git ["push"; "--tags"];
                     Echo "--- ✅ Git Workflow Complete ---"];
         exit_status := 0 |}
    else
      {| actions := start ++
                    [Echo "--- ⚠️ Nothing to Commit (Working tree clean) ---"];
         exit_status := 0 |}.

End WithGit.

(** One bracket expression of two letters, as in [[yY]]. *)
Definition either (a b c : ascii) : bool := Ascii.eqb c a || Ascii.eqb c b.

(** [[[ "$response" =~ ^([yY][eE][sS]|[yY])$ ]]]. *)
Definition confirms (response : string) : bool :=
  match response with
  | String y EmptyString => either "y" "Y" y
  | String y (String e (String s EmptyString)) =>
      either "y" "Y" y && either "e" "E" e && either "s" "S" s
  | _ => false
  end.

(** git_discard_local_changes.sh, given the line [read -r] put in
    [response]; the prompt of [read -p] is not part of the output. *)
Definition git_discard_local_changes (response : string) : Run :=
  if confirms response then
    {| actions := [Echo "--- ⚠️ Discarding Local Changes ---";
                   Git ["restore"; "."];
                   Echo "Cleaning untracked files...";
                   Git ["clean"; "-f"; "-d"];
                   Echo "--- ✅ Local Directory Cleaned ---"];
       exit_status := 0 |}
  else
    {| actions := [Echo "Action cancelled."]; exit_status := 0 |}.

(** The responses the pattern accepts, written out. *)
Definition accepted : list string :=
  ["y"; "Y"; "yes"; "yeS"; "yEs"; "yES"; "Yes"; "YeS"; "YEs"; "YES"].

End Scripts.

(* ================================================================= *)
(** ** More concrete responses and sessions *)

Module MoreExamples.
Import JS Api App.

(** [400 {"detail": []}]: a truthy [detail] that prints as nothing. *)
Definition empty_detail : Response :=
  {| status := 400; statusText := "Bad Request";
     json := JsonValue (JObject [("detail", JArray [])]) |}.

(** A result as the backend sends it, with its file analysis. *)
Definition analysed : Json :=
  JObject
    [("stage1", JObject [("files", JArray [JString "main.py"])]);
     ("stage2", JArray []);
     ("metadata",
      JObject [("source_path", JString ".");
               ("file_analysis",
                JObject [("files_read", JNumber 10);
                         ("total_size_mb", JString "1.23");
                         ("files_skipped", JNumber 0)])])].

(** The session after that result has arrived. *)
Definition succeeded : World := settle 0 (Resolved analysed) Examples.running.

(** [200 {"llm_provider": "ollama"}]. *)
Definition ollama_settings : Response :=
  {| status := 200; statusText := "OK";
     json := JsonValue (JObject [("llm_provider", JString "ollama")]) |}.

(** A refusal whose [detail] happens to contain the word "Saving". *)
Definition saving_refused : Response :=
  {| status := 500; statusText := "Internal Server Error";
     json := JsonValue
               (JObject [("detail",
                          JString "Saving settings requires STORAGE_BACKEND=database")]) |}.

(** The panel after its settings have loaded, and after a save was refused
    with that response. *)
Definition panel_loaded : Settings.World :=
  Settings.settle 0 (Settings.getSettings_settle (Responded ollama_settings))
    (Settings.mounted "http://localhost:8001").

Definition panel_refused : Settings.World :=
  Settings.settle 0
    (Settings.updateSettings_settle Examples.example_host (Responded saving_refused))
    (Settings.user "http://localhost:8001" Settings.ClickSave panel_loaded).

End MoreExamples.

(* ================================================================= *)
(** * Properties of the API client *)

Module ApiSpec.
Import JS Api.

Lemma append_empty_r (s : string) : s ++ "" = s.
Proof. induction s as [| c s IH]; simpl; [reflexivity | now rewrite IH]. Qed.

Lemma truthy_string (s : string) :
  ToBoolean (Some (JString s)) = true <-> s <> "".
Proof.
  simpl. destruct (String.eqb_spec s ""); simpl; split; congruence.
Qed.

Lemma truthy_nullable (p : option string) :
  ToBoolean (Some (of_nullable p)) = true <-> exists s, p = Some s /\ s <> "".
Proof.
  destruct p as [s|]; simpl of_nullable.
  - rewrite truthy_string. split.
    + intros Hs. exists s. auto.
    + intros [s' [Heq Hs]]. congruence.
  - simpl. split; [discriminate | intros [s [Heq _]]; discriminate].
Qed.

Lemma requestBody_with (projectPath s : string) :
  s <> "" ->
  requestBody projectPath (Some s)
  = [("project_path", JString projectPath); ("analysis_prompt", JString s)].
Proof.
  intros Hs. unfold requestBody.
  rewrite (proj2 (truthy_nullable (Some s))) by eauto. reflexivity.
Qed.

Lemma requestBody_empty (projectPath : string) :
  requestBody projectPath (Some "") = [("project_path", JString projectPath)].
Proof. reflexivity. Qed.

Lemma requestBody_null (projectPath : string) :
  requestBody projectPath None = [("project_path", JString projectPath)].
Proof. reflexivity. Qed.

(** C5.  The request body always carries [project_path], equal to the path
    given (whatever it is, the empty string included), and carries
    [analysis_prompt] exactly when the prompt is a non-empty string; with a
    [null], omitted or empty prompt the key is absent, not [null]. *)
Theorem request_body_keys (baseUrl projectPath : string) (analysisPrompt : option string) :
  let props := requestBody projectPath analysisPrompt in
  body (analyzeProject_call baseUrl (Some projectPath) (Some analysisPrompt)) = JObject props
  /\ lookup "project_path" props = Some (JString projectPath)
  /\ (has_key "analysis_prompt" props = true <->
      exists s, analysisPrompt = Some s /\ s <> "")
  /\ (forall s, analysisPrompt = Some s -> s <> "" ->
      props = [("project_path", JString projectPath); ("analysis_prompt", JString s)])
  /\ ((analysisPrompt = None \/ analysisPrompt = Some "") ->
      props = [("project_path", JString projectPath)]
      /\ lookup "analysis_prompt" props = None)
  /\ body (analyzeProject_call baseUrl (Some projectPath) None)
     = JObject [("project_path", JString projectPath)].
Proof.
  intros props.
  assert (Hcall : forall a, body (analyzeProject_call baseUrl (Some projectPath) a)
                  = JObject (requestBody projectPath
                               match a with Some x => x | None => None end))
    by reflexivity.
  destruct analysisPrompt as [s|].
  - destruct (String.eqb_spec s "") as [-> | Hs].
    + (* the empty prompt *)
      subst props. rewrite !Hcall, requestBody_empty, requestBody_null.
      repeat apply conj; try reflexivity.
      * discriminate.
      * intros [s [Heq Hs]]. congruence.
      * intros s Heq Hs. congruence.
      * intros _. split; reflexivity.
    + subst props. rewrite !Hcall, (requestBody_with _ _ Hs), requestBody_null.
      repeat apply conj; try reflexivity.
      * intros _. exists s. auto.
      * intros s' Heq _. congruence.
      * intros [Hn | He]; congruence.
  - subst props. rewrite !Hcall, requestBody_null.
    repeat apply conj; try reflexivity.
    + discriminate.
    + intros [s [Heq Hs]]. discriminate.
    + intros s Heq Hs. discriminate.
    + intros _. split; reflexivity.
Qed.

Section Errors.
Variable host : Host.

Lemma settle_not_ok (response : Response) :
  ok response = false ->
  analyzeProject_settle host (Responded response) =
  throw_new_Error host
    match
      bind (response_json response) (fun errorData =>
      bind (Get_detail host errorData) (fun detail =>
      Normal (if ToBoolean detail
              then match detail with
                   | Some d => d
                   | None => JString "Failed to analyze project"
                   end
              else JString "Failed to analyze project")))
    with
    | Normal m => m
    | Thrown _ => JString ("Failed to analyze project: " ++ statusText response)
    end.
Proof.
  intros Hok. unfold analyzeProject_settle. rewrite Hok. reflexivity.
Qed.

(** C2, as the code has it.  On a response outside 2xx: a [detail] that is
    a non-empty string is the error message, verbatim; any other truthy
    [detail] goes through the [Error] constructor's string conversion; a
    body that is not JSON gives ["Failed to analyze project: "] followed
    by the status text. *)
Theorem error_detail_surfaced (response : Response) :
  ok response = false ->
  (forall props X,
      json response = JsonValue (JObject props) ->
      lookup "detail" props = Some (JString X) -> X <> "" ->
      analyzeProject_settle host (Responded response) = Rejected X)
  /\ (forall props d,
      json response = JsonValue (JObject props) ->
      lookup "detail" props = Some d -> ToBoolean (Some d) = true ->
      exists message,
        (ToString host d = Normal message \/ ToString host d = Thrown message)
        /\ analyzeProject_settle host (Responded response) = Rejected message)
  /\ (forall e,
      json response = JsonSyntaxError e ->
      analyzeProject_settle host (Responded response)
      = Rejected ("Failed to analyze project: " ++ statusText response)
      /\ contains (statusText response)
           ("Failed to analyze project: " ++ statusText response)).
Proof.
  intros Hok. rewrite (settle_not_ok _ Hok). unfold response_json.
  split; [| split].
  - intros props X -> Hd HX. simpl. rewrite Hd.
    apply truthy_string in HX. cbn [bind]. rewrite HX. reflexivity.
  - intros props d -> Hd Ht. simpl. rewrite Hd. cbn [bind]. rewrite Ht.
    unfold throw_new_Error.
    destruct (ToString host d) as [m|m]; exists m; auto.
  - intros e ->. simpl. split; [reflexivity |].
    exists "Failed to analyze project: ", "".
    now rewrite append_empty_r.
Qed.

(** C9, as the code has it.  On a response outside 2xx whose body is a
    JSON value other than [null] and has no truthy [detail], the message
    is the fixed ["Failed to analyze project"]; a body that is JSON
    [null] makes the read of [detail] throw and takes the status-text
    message instead. *)
Theorem error_without_detail (response : Response) (errorData : Json) :
  ok response = false ->
  json response = JsonValue errorData ->
  (errorData <> JNull ->
   (forall props d, errorData = JObject props ->
                    lookup "detail" props = Some d -> ToBoolean (Some d) = false) ->
   analyzeProject_settle host (Responded response)
   = Rejected "Failed to analyze project")
  /\ (errorData = JNull ->
      analyzeProject_settle host (Responded response)
      = Rejected ("Failed to analyze project: " ++ statusText response)).
Proof.
  intros Hok Hjson. rewrite (settle_not_ok _ Hok). unfold response_json.
  rewrite Hjson. split.
  - intros Hnn Hfalsy. destruct errorData; try congruence; try reflexivity.
    simpl. destruct (lookup "detail" props) as [d|] eqn:Hd; [| reflexivity].
    cbn [bind]. rewrite (Hfalsy props d eq_refl Hd). reflexivity.
  - intros ->. reflexivity.
Qed.

End Errors.

(** C2 as stated fails: a truthy [detail] that is not a string is not the
    message; a validation failure's list of records surfaces as
    ["[object Object]"]. *)
Lemma detail_not_always_verbatim :
  ok Examples.validation_error = false
  /\ json Examples.validation_error
     = JsonValue (JObject [("detail", Examples.validation_detail)])
  /\ ToBoolean (Some Examples.validation_detail) = true
  /\ analyzeProject_settle Examples.example_host
       (Responded Examples.validation_error)
     = Rejected "[object Object]"
  /\ JString "[object Object]" <> Examples.validation_detail.
Proof.
  repeat split; try reflexivity. discriminate.
Qed.

Lemma error_detail_surfaced_witness :
  analyzeProject_settle Examples.example_host (Responded Examples.boom)
  = Rejected "boom".
Proof.
  refine (proj1 (error_detail_surfaced Examples.example_host Examples.boom eq_refl)
            [("detail", JString "boom")] "boom" eq_refl eq_refl _).
  discriminate.
Defined.

(** C9 as stated fails: the body [null] parses as JSON and has no [detail],
    yet the message carries the status text. *)
Lemma null_body_takes_status_text :
  ok Examples.null_error = false
  /\ json Examples.null_error = JsonValue JNull
  /\ (forall d, Get_detail Examples.example_host JNull <> Normal (Some d))
  /\ analyzeProject_settle Examples.example_host (Responded Examples.null_error)
     = Rejected "Failed to analyze project: Internal Server Error"
  /\ "Failed to analyze project: Internal Server Error"
     <> "Failed to analyze project".
Proof.
  repeat split; try reflexivity; try discriminate.
Qed.

Lemma error_without_detail_witness :
  analyzeProject_settle Examples.example_host (Responded Examples.no_detail)
  = Rejected "Failed to analyze project".
Proof.
  refine (proj1 (error_without_detail Examples.example_host Examples.no_detail
                   (JObject [("error", JString "upstream")]) eq_refl eq_refl) _ _).
  - discriminate.
  - intros props d [= <-]. discriminate.
Defined.

End ApiSpec.

(* ================================================================= *)
(** * Properties of the progress animation *)

Module ProgressSpec.
Import JS Progress.

(** *** Arithmetic of the percent

    [100 / 120] is not a binary fraction: 120 additions of it stop just
    short of 100, so the guard of line 37 stays false for a whole stage. *)

Lemma below_100_all : forallb below_100 (seq 0 121) = true.
Proof. vm_compute. reflexivity. Qed.

Lemma below_100_at (j : nat) : j <= 120 -> below_100 j = true.
Proof.
  intros Hj. pose proof below_100_all as H.
  rewrite forallb_forall in H. apply H. apply in_seq. lia.
Qed.

Lemma below_100_facts (j : nat) :
  j <= 120 ->
  is_nan (after_ticks j) = false
  /\ (after_ticks j <? 100)%float = true
  /\ (100 <=? after_ticks j)%float = false
  /\ (0 <=? after_ticks j)%float = true
  /\ (after_ticks j <=? 100)%float = true
  /\ (after_ticks j <? after_ticks (S j))%float = true.
Proof.
  intros Hj. pose proof (below_100_at j Hj) as H. unfold below_100 in H.
  rewrite !andb_true_iff, !negb_true_iff in H. tauto.
Qed.

(** The guard of line 37 is false on each of the 120 ticks of a stage. *)
Lemma guard_false (j : nat) :
  j <= 120 -> (100 <=? after_ticks j)%float = false.
Proof. intros Hj. apply (below_100_facts j Hj). Qed.

(** And [Math.min] hands the value on as it is. *)
Lemma Math_min_below (j : nat) :
  j <= 120 -> Math_min (after_ticks j) 100%float = after_ticks j.
Proof.
  intros Hj. destruct (below_100_facts j Hj) as (Hnan & Hlt & _).
  unfold Math_min. rewrite Hnan. cbn [orb]. now rewrite Hlt.
Qed.

Lemma percent_bounds (j : nat) :
  j <= 120 ->
  (0 <=? after_ticks j)%float = true /\ (after_ticks j <=? 100)%float = true.
Proof. intros Hj. split; apply (below_100_facts j Hj). Qed.

Lemma percent_grows (j : nat) :
  j <= 120 -> (after_ticks j <? after_ticks (S j))%float = true.
Proof. intros Hj. apply (below_100_facts j Hj). Qed.

(** *** One call of [startStage] on a host with no timer left *)

Lemma startStage_next (stageIndex : nat) (w : World) :
  stageIndex < 3 -> queue w = [] ->
  startStage (S stageIndex) w
  = started (S stageIndex mod 3)
      (if Nat.eqb stageIndex 2
       then [SetProgress 0; SetCurrentStage 0; SetProgress 0; SetCurrentStage 0]
              ++ ticks w
       else [SetProgress 0; SetCurrentStage (S stageIndex)] ++ ticks w) w.
Proof.
  intros Hi Hq.
  destruct stageIndex as [| [| [| n]]]; try lia;
    unfold startStage, startStage_in_range, started; simpl; rewrite Hq;
    reflexivity.
Qed.

Lemma mount_started (w0 : World) :
  queue w0 = [] ->
  mount w0 = started 0 ([SetProgress 0; SetCurrentStage 0] ++ ticks w0) w0.
Proof.
  intros Hq. unfold mount, startStage, startStage_in_range, started. simpl.
  rewrite Hq. reflexivity.
Qed.

Lemma started_at_offset (t0 : Z) (k : nat) (log : list Tick) (w : World) :
  now w = instant t0 k 0 ->
  at_offset t0 k 0 (started (k mod 3) log w).
Proof.
  intros Hnow. exists (nextHandle w). unfold started; simpl.
  repeat split; try reflexivity; try assumption.
  unfold tick_timer, stage_timer. rewrite Hnow.
  replace (instant t0 k 0 + 100)%Z with (instant t0 k 1) by (unfold instant; lia).
  replace (instant t0 k 0 + 12000)%Z with (instant t0 (S k) 0)
    by (unfold instant; lia).
  reflexivity.
Qed.

Lemma mount_at_offset (w0 : World) :
  queue w0 = [] -> at_offset (now w0) 0 0 (mount w0).
Proof.
  intros Hq. rewrite (mount_started _ Hq).
  apply (started_at_offset (now w0) 0). unfold instant. lia.
Qed.

(** *** The two things the host can do next *)

Lemma handle_next_differs (h : nat) : Nat.eqb (S h) h = false.
Proof. apply Nat.eqb_neq. lia. Qed.

Lemma fire_tick (t0 : Z) (k j h : nat) (w : World) :
  at_offset t0 k j w -> j < 120 -> progressTimer w = Some h ->
  at_offset t0 k (S j) (fire (tick_timer t0 k j h) w)
  /\ ticks (fire (tick_timer t0 k j h) w)
     = SetProgress (after_ticks (S j)) :: ticks w.
Proof.
  intros [h' (Hnow & Hcs & Hp & Hpv & Hpt & Hst & Hq)] Hj Hh.
  assert (h' = h) by congruence. subst h'.
  unfold fire, requeue, run_callback. cbn [callback period tick_timer handle due].
  rewrite Hq. cbn [map handle tick_timer stage_timer].
  rewrite Nat.eqb_refl, handle_next_differs.
  cbn [with_host with_vars progressValue stageTimer progressTimer].
  rewrite Hpv.
  change (after_ticks j + progressIncrement)%float with (after_ticks (S j)).
  rewrite (guard_false (S j)) by lia.
  cbn [with_vars progressValue].
  rewrite (Math_min_below (S j)) by lia.
  split; [| reflexivity].
  exists h. cbn.
  repeat split; try assumption; try reflexivity.
  unfold tick_timer, stage_timer. cbn.
  replace (instant t0 k (S j) + 100)%Z with (instant t0 k (S (S j)))
    by (unfold instant; lia).
  reflexivity.
Qed.

Lemma mod3_succ (k : nat) : S (k mod 3) mod 3 = S k mod 3.
Proof.
  replace (S (k mod 3)) with (k mod 3 + 1) by lia.
  replace (S k) with (k + 1) by lia.
  apply Nat.Div0.add_mod_idemp_l.
Qed.

Lemma fire_stage_end (t0 : Z) (k j h : nat) (w : World) :
  at_offset t0 k j w -> stageTimer w = Some h ->
  at_offset t0 (S k) 0 (fire (stage_timer t0 k h) w).
Proof.
  intros [h' (Hnow & Hcs & Hp & Hpv & Hpt & Hst & Hq)] Hh.
  assert (h = S h') by congruence. subst h.
  unfold fire, requeue, run_callback. cbn [callback period stage_timer handle due].
  rewrite Hq. unfold clearInterval, clearTimer.
  cbn [with_host progressTimer]. rewrite Hpt.
  cbn [with_host queue now nextHandle drop filter handle tick_timer stage_timer].
  rewrite Nat.eqb_refl, (Nat.eqb_sym h' (S h')), handle_next_differs.
  cbn [negb filter handle]. rewrite Nat.eqb_refl. cbn [negb].
  rewrite Nat.add_1_r, startStage_next;
    [| apply Nat.mod_upper_bound; lia | reflexivity].
  rewrite mod3_succ. apply started_at_offset. reflexivity.
Qed.

(** Whatever the host does next is one of the two. *)
Lemma step_from_offset (t0 : Z) (k j : nat) (w w' : World) :
  at_offset t0 k j w -> step w w' ->
  (j < 120 /\ at_offset t0 k (S j) w'
   /\ ticks w' = SetProgress (after_ticks (S j)) :: ticks w)
  \/ (119 <= j /\ at_offset t0 (S k) 0 w').
Proof.
  intros Hat Hstep. destruct Hstep as [w t [Hin Hmin]].
  destruct Hat as [h Hat]. pose proof Hat as (Hnow & Hcs & Hp & Hpv & Hpt & Hst & Hq).
  rewrite Hq in Hin, Hmin.
  destruct Hin as [<- | [<- | []]].
  - left.
    assert (Hj : j < 120).
    { specialize (Hmin (stage_timer t0 k (S h)) (or_intror (or_introl eq_refl))).
      unfold tick_timer, stage_timer in Hmin. cbn [due] in Hmin.
      unfold instant in Hmin. lia. }
    split; [exact Hj |].
    apply fire_tick; [exists h; exact Hat | exact Hj | exact Hpt].
  - right.
    assert (Hj : 119 <= j).
    { specialize (Hmin (tick_timer t0 k j h) (or_introl eq_refl)).
      unfold tick_timer, stage_timer in Hmin. cbn [due] in Hmin.
      unfold instant in Hmin. lia. }
    split; [exact Hj |].
    apply (fire_stage_end t0 k j); [exists h; exact Hat | exact Hst].
Qed.

(** Every reachable world stands at some offset. *)
Lemma reachable_at_offset (t0 : Z) (w : World) :
  reachable t0 w -> exists k j, j <= 120 /\ at_offset t0 k j w.
Proof.
  induction 1 as [w0 Hq Hnow | w w' Hreach IH Hstep].
  - exists 0, 0. split; [lia |]. subst t0. now apply mount_at_offset.
  - destruct IH as (k & j & Hj & Hat).
    destruct (step_from_offset _ _ _ _ _ Hat Hstep) as [(Hlt & Hat' & _) | (_ & Hat')].
    + exists k, (S j). split; [lia | exact Hat'].
    + exists (S k), 0. split; [lia | exact Hat'].
Qed.

(** Every offset is reached: the animation never ends by itself. *)
Lemma offset_reached (t0 : Z) (k j : nat) :
  j <= 120 -> exists w, reachable t0 w /\ at_offset t0 k j w.
Proof.
  intros Hj.
  assert (Hstage : exists w, reachable t0 w /\ at_offset t0 k 0 w).
  { induction k as [| k IHk].
    - exists (mount (idle_host t0)). split.
      + now apply reach_mount.
      + apply (mount_at_offset (idle_host t0)). reflexivity.
    - destruct IHk as (w & Hreach & Hat).
      assert (Hticks : forall i, i <= 119 ->
                 exists w, reachable t0 w /\ at_offset t0 k i w).
      { induction i as [| i IHi]; intros Hi.
        - exists w. auto.
        - destruct IHi as (wi & Hri & Hati); [lia |].
          pose proof Hati as [h (_ & _ & _ & _ & Hpt & _ & Hq)].
          exists (fire (tick_timer t0 k i h) wi). split.
          + apply (reach_step _ wi); [exact Hri |].
            apply step_fire. rewrite Hq. split; [now left |].
            intros t' [<- | [<- | []]]; unfold tick_timer, stage_timer;
              cbn [due]; unfold instant; lia.
          + apply fire_tick; auto; lia. }
      destruct (Hticks 119 (le_n _)) as (wl & Hrl & Hatl).
      pose proof Hatl as [h (_ & _ & _ & _ & _ & Hst & Hq)].
      exists (fire (stage_timer t0 k (S h)) wl). split.
      + apply (reach_step _ wl); [exact Hrl |].
        apply step_fire. rewrite Hq. split; [right; now left |].
        intros t' [<- | [<- | []]]; unfold tick_timer, stage_timer;
          cbn [due]; unfold instant; lia.
      + apply (fire_stage_end t0 k 119); auto. }
  destruct Hstage as (w & Hreach & Hat).
  induction j as [| j IHj].
  - exists w. auto.
  - destruct IHj as (wj & Hrj & Hatj); [lia |].
    pose proof Hatj as [h (_ & _ & _ & _ & Hpt & _ & Hq)].
    exists (fire (tick_timer t0 k j h) wj). split.
    + apply (reach_step _ wj); [exact Hrj |].
      apply step_fire. rewrite Hq. split; [now left |].
      intros t' [<- | [<- | []]]; unfold tick_timer, stage_timer;
        cbn [due]; unfold instant; lia.
    + apply fire_tick; auto; lia.
Qed.

Lemma can_step (t0 : Z) (k j : nat) (w : World) :
  j <= 120 -> at_offset t0 k j w -> exists w', step w w'.
Proof.
  intros Hj [h (_ & _ & _ & _ & _ & _ & Hq)].
  destruct (Nat.eq_dec j 120) as [-> | Hne].
  - exists (fire (stage_timer t0 k (S h)) w). apply step_fire. rewrite Hq.
    split; [right; now left |].
    intros t' [<- | [<- | []]]; unfold tick_timer, stage_timer;
      cbn [due]; unfold instant; lia.
  - exists (fire (tick_timer t0 k j h) w). apply step_fire. rewrite Hq.
    split; [now left |].
    intros t' [<- | [<- | []]]; unfold tick_timer, stage_timer;
      cbn [due]; unfold instant; lia.
Qed.

(** *** The executable host *)

Lemma first_due_none (q : list Timer) : first_due q = None -> q = [].
Proof.
  destruct q as [| x q]; [reflexivity |]. cbn [first_due].
  destruct (first_due q); [destruct (_ <? _)%Z |]; discriminate.
Qed.

Lemma first_due_earliest (q : list Timer) (t : Timer) :
  first_due q = Some t -> earliest q t.
Proof.
  revert t. induction q as [| x q IH]; intros t Hf; [discriminate |].
  cbn [first_due] in Hf. destruct (first_due q) as [t' |] eqn:Hq.
  - destruct (IH t' eq_refl) as [Hin Hmin].
    destruct (Z.ltb_spec (due t') (due x)) as [Hlt | Hge];
      injection Hf as <-.
    + split; [now right |].
      intros y [<- | Hy]; [lia | now apply Hmin].
    + split; [now left |].
      intros y [<- | Hy]; [lia |]. specialize (Hmin y Hy). lia.
  - injection Hf as <-. rewrite (first_due_none q Hq).
    split; [now left |]. intros y [<- | []]. lia.
Qed.

Lemma run_reachable (t0 : Z) (fuel : nat) (w : World) :
  reachable t0 w -> reachable t0 (run fuel w).
Proof.
  revert w. induction fuel as [| fuel IH]; intros w Hreach; [exact Hreach |].
  cbn [run]. destruct (first_due (queue w)) as [t |] eqn:Hf; [| exact Hreach].
  apply IH. apply (reach_step _ w); [exact Hreach |].
  apply step_fire. now apply first_due_earliest.
Qed.

(** Four stage ends in a row, each after 120 ticks: the fourth brings the
    animation to its second stage again. *)
Example four_stage_ends :
  let w := run (4 * 121) (mount (idle_host 0)) in
  reachable 0 w
  /\ now w = 48000%Z
  /\ map currentStage
       [run 121 (mount (idle_host 0)); run (2 * 121) (mount (idle_host 0));
        run (3 * 121) (mount (idle_host 0)); w]
     = [1; 2; 0; 1]
  /\ progress (run 120 (mount (idle_host 0))) = after_ticks 120
  /\ (progress (run 120 (mount (idle_host 0))) <? 100)%float = true
  /\ progress w = 0%float.
Proof.
  split.
  - apply run_reachable. now apply reach_mount.
  - vm_compute. repeat split; reflexivity.
Qed.

(** *** Stopping *)

Lemma drop_twice (n m : nat) (q : list Timer) :
  drop n (drop m (drop n (drop m q))) = drop n (drop m q).
Proof.
  unfold drop. induction q as [| t q IH]; [reflexivity |].
  cbn [filter].
  destruct (Nat.eqb (handle t) m) eqn:Hm; cbn [negb]; [exact IH |].
  cbn [filter].
  destruct (Nat.eqb (handle t) n) eqn:Hn; cbn [negb]; [exact IH |].
  cbn [filter]. rewrite Hm. cbn [negb filter]. rewrite Hn. cbn [negb].
  now rewrite IH.
Qed.

Lemma drop_once (n : nat) (q : list Timer) : drop n (drop n q) = drop n q.
Proof.
  unfold drop. induction q as [| t q IH]; [reflexivity |].
  cbn [filter].
  destruct (Nat.eqb (handle t) n) eqn:Hn; cbn [negb]; [exact IH |].
  cbn [filter]. rewrite Hn. cbn [negb]. now rewrite IH.
Qed.

Lemma cleanup_idempotent (w : World) : cleanup (cleanup w) = cleanup w.
Proof.
  destruct w as [t n q cs p st pt pv log].
  unfold cleanup, clearTimeout, clearInterval, clearTimer, with_host.
  destruct st as [a|], pt as [b|]; cbn; try reflexivity;
    f_equal; first [apply drop_twice | apply drop_once].
Qed.

Lemma cleanup_at_offset (t0 : Z) (k j : nat) (w : World) :
  at_offset t0 k j w -> queue (cleanup w) = [] /\ ticks (cleanup w) = ticks w.
Proof.
  intros [h (_ & _ & _ & _ & Hpt & Hst & Hq)].
  unfold cleanup, clearTimeout, clearInterval, clearTimer.
  rewrite Hst. cbn [with_host progressTimer]. rewrite Hpt.
  cbn [with_host queue ticks]. rewrite Hq.
  unfold drop. cbn [filter handle tick_timer stage_timer].
  rewrite !Nat.eqb_refl, (Nat.eqb_sym h (S h)), handle_next_differs.
  cbn [negb filter handle]. rewrite Nat.eqb_refl. auto.
Qed.

Lemma no_step_without_timers (w w' : World) : queue w = [] -> ~ step w w'.
Proof.
  intros Hq Hstep. destruct Hstep as [w t [Hin _]]. rewrite Hq in Hin.
  destruct Hin.
Qed.

Lemma steps_without_timers (w w' : World) :
  queue w = [] -> steps w w' -> w' = w.
Proof.
  intros Hq Hsteps. destruct Hsteps as [w | w w1 w2 Hstep _]; [reflexivity |].
  now apply no_step_without_timers in Hstep.
Qed.

(** C1.  Wherever the animation stands when the effect's cleanup runs, the
    host is left without a timer: nothing can fire, so no state update
    ([setCurrentStage], [setProgress]) is ever made again, and running the
    cleanup once more changes nothing. *)
Theorem no_tick_after_stop (t0 : Z) (w : World) :
  reachable t0 w ->
  let stopped := cleanup w in
  queue stopped = []
  /\ ticks stopped = ticks w
  /\ (forall w', steps stopped w' -> w' = stopped /\ ticks w' = ticks w)
  /\ cleanup stopped = stopped.
Proof.
  intros Hreach stopped.
  destruct (reachable_at_offset _ _ Hreach) as (k & j & _ & Hat).
  destruct (cleanup_at_offset _ _ _ _ Hat) as [Hq Hticks].
  split; [exact Hq |]. split; [exact Hticks |]. split.
  - intros w' Hsteps. apply (steps_without_timers _ _ Hq) in Hsteps.
    subst w'. split; [reflexivity | exact Hticks].
  - apply cleanup_idempotent.
Qed.

(** A world one tick into the first stage. *)
Lemma one_tick_reachable :
  reachable 0 (fire (tick_timer 0 0 0 0) (mount (idle_host 0))).
Proof.
  apply (reach_step _ (mount (idle_host 0))).
  - now apply reach_mount.
  - apply step_fire. split; [now left |].
    intros t' [<- | [<- | []]]; cbn; lia.
Qed.

Lemma no_tick_after_stop_witness :
  let w := fire (tick_timer 0 0 0 0) (mount (idle_host 0)) in
  let stopped := cleanup w in
  queue stopped = []
  /\ ticks stopped = ticks w
  /\ (forall w', steps stopped w' -> w' = stopped /\ ticks w' = ticks w)
  /\ cleanup stopped = stopped.
Proof.
  exact (no_tick_after_stop 0 _ one_tick_reachable).
Defined.

(** C4.  There are exactly three stages, all of 12000 ms.  [k] stage ends
    and [j] ticks after mounting, at time [t0 + 12000 k + 100 j], the stage
    shown is [k mod 3] and the percent is [j] additions of the one
    increment [100 / (12000 / 100)] to 0: it grows with every tick and
    stays within 0..100.  Each host step is either a tick, adding the
    increment within the stage, or a stage end, moving to the next stage
    modulo 3 with the percent back at 0.  Something can always fire next,
    and every stage count and tick offset is reached. *)
Theorem stage_cycle :
  (List.length stages = 3 /\ forall s, In s stages -> duration s = 12000%Z)
  /\ (forall t0 w, reachable t0 w ->
       exists k j,
         j <= 120
         /\ now w = instant t0 k j
         /\ currentStage w = k mod 3
         /\ progress w = after_ticks j
         /\ (0 <=? progress w)%float = true
         /\ (progress w <=? 100)%float = true
         /\ exists w', step w w')
  /\ (forall j, j <= 120 ->
       after_ticks (S j) = (after_ticks j + progressIncrement)%float
       /\ (after_ticks j <? after_ticks (S j))%float = true)
  /\ (forall t0 w w', reachable t0 w -> step w w' ->
       (currentStage w' = currentStage w
        /\ progress w' = (progress w + progressIncrement)%float)
       \/ (currentStage w' = S (currentStage w) mod 3
           /\ progress w' = 0%float))
  /\ (forall t0 k j, j <= 120 ->
       exists w,
         reachable t0 w
         /\ now w = instant t0 k j
         /\ currentStage w = k mod 3
         /\ progress w = after_ticks j).
Proof.
  split; [| split; [| split; [| split]]].
  - split; [reflexivity |].
    intros s [<- | [<- | [<- | []]]]; reflexivity.
  - intros t0 w Hreach.
    destruct (reachable_at_offset _ _ Hreach) as (k & j & Hj & Hat).
    pose proof Hat as [h (Hnow & Hcs & Hp & _)].
    exists k, j. rewrite Hp.
    destruct (percent_bounds j Hj) as [H0 H100].
    repeat split; try assumption.
    now apply (can_step t0 k j).
  - intros j Hj. split; [reflexivity | now apply percent_grows].
  - intros t0 w w' Hreach Hstep.
    destruct (reachable_at_offset _ _ Hreach) as (k & j & Hj & Hat).
    pose proof Hat as [h (_ & Hcs & Hp & _)].
    destruct (step_from_offset _ _ _ _ _ Hat Hstep)
      as [(_ & [h' (_ & Hcs' & Hp' & _)] & _) | (_ & [h' (_ & Hcs' & Hp' & _)])].
    + left. rewrite Hcs', Hcs, Hp', Hp. auto.
    + right. rewrite Hcs', Hcs, Hp', mod3_succ. auto.
  - intros t0 k j Hj.
    destruct (offset_reached t0 k j Hj) as (w & Hreach & [h (Hnow & Hcs & Hp & _)]).
    exists w. auto.
Qed.

End ProgressSpec.

(* ================================================================= *)
(** * Properties of the session *)

Module AppSpec.
Import JS Api App.

Ltac case_ifs :=
  repeat match goal with
         | |- context [if ?b then _ else _] => destruct b eqn:?
         end.

Lemma running_iff (s : State) :
  sessionState s = Running <-> isAnalyzing s = true.
Proof.
  unfold sessionState, render. cbn [showProgress showError showResults].
  destruct (isAnalyzing s); cbn [negb andb]; [tauto |].
  split; [| discriminate]. case_ifs; discriminate.
Qed.

Lemma failed_shows_retry (s : State) (m : string) :
  sessionState s = Failed m ->
  isAnalyzing s = false /\ showError (render s) = true /\ analysisError s = Some m.
Proof.
  unfold sessionState, render. cbn [showProgress showError showResults].
  destruct (isAnalyzing s); cbn [negb andb]; [discriminate |].
  destruct (analysisError s) as [e|]; cbn [of_nullable ToBoolean].
  - destruct (String.eqb e ""); cbn [negb andb].
    + case_ifs; discriminate.
    + intros [= <-]. auto.
  - cbn [negb andb]. case_ifs; discriminate.
Qed.

(** The results are on screen only for a stored result that is not [null]. *)
Lemma succeeded_stores (s : State) (result : Json) :
  sessionState s = Succeeded result ->
  isAnalyzing s = false /\ analysisResult s = result /\ result <> JNull.
Proof.
  unfold sessionState, render. cbn [showProgress showError showResults].
  destruct (isAnalyzing s); cbn [negb andb]; [discriminate |].
  destruct (ToBoolean (Some (of_nullable (analysisError s))));
    cbn [negb andb]; [discriminate |].
  destruct (ToBoolean (Some (analysisResult s))) eqn:Ht; [| discriminate].
  intros [= <-]. repeat split. intros Hnull. rewrite Hnull in Ht. discriminate.
Qed.

Section WithEnv.
Variable VITE_API_BASE_URL : option string.

#[local] Abbreviation start := (App.start VITE_API_BASE_URL).
#[local] Abbreviation retry := (App.retry VITE_API_BASE_URL).
#[local] Abbreviation user := (App.user VITE_API_BASE_URL).
#[local] Abbreviation step := (App.step VITE_API_BASE_URL).
#[local] Abbreviation reachable := (App.reachable VITE_API_BASE_URL).
#[local] Abbreviation handleAnalyzeClick := (App.handleAnalyzeClick VITE_API_BASE_URL).
#[local] Abbreviation current_request := (App.current_request VITE_API_BASE_URL).

(** The handler's synchronous part, spelled out. *)
Lemma handleAnalyzeClick_eq (w : World) :
  handleAnalyzeClick w
  = {| state := {| isAnalyzing := true; analysisResult := JNull;
                   analysisError := None;
                   projectPath := projectPath (state w);
                   analysisPrompt := analysisPrompt (state w) |};
       pending := pending w ++ [current_request (state w)];
       sent := current_request (state w) :: sent w;
       mounted := mounted w; sim := sim w |}.
Proof. reflexivity. Qed.

Lemma commit_handleAnalyzeClick (w : World) :
  mounted w = false ->
  commit (handleAnalyzeClick w)
  = {| state := {| isAnalyzing := true; analysisResult := JNull;
                   analysisError := None;
                   projectPath := projectPath (state w);
                   analysisPrompt := analysisPrompt (state w) |};
       pending := pending w ++ [current_request (state w)];
       sent := current_request (state w) :: sent w;
       mounted := true; sim := Progress.mount (sim w) |}.
Proof.
  intros Hm. rewrite handleAnalyzeClick_eq. unfold commit. cbn. rewrite Hm.
  reflexivity.
Qed.

(** The handler's continuation on the one request in flight. *)
Lemma settle_running (o : Outcome) (w : World) (call : FetchCall) :
  pending w = [call] -> mounted w = true ->
  settle 0 o w
  = {| state := {| isAnalyzing := false;
                   analysisResult :=
                     match o with
                     | Resolved result => result
                     | Rejected _ => analysisResult (state w)
                     end;
                   analysisError :=
                     match o with
                     | Resolved _ => analysisError (state w)
                     | Rejected message => Some message
                     end;
                   projectPath := projectPath (state w);
                   analysisPrompt := analysisPrompt (state w) |};
       pending := []; sent := sent w; mounted := false;
       sim := Progress.cleanup (sim w) |}.
Proof.
  intros Hp Hm. unfold settle. rewrite Hp. cbn [nth_error remove_nth].
  destruct o; unfold commit; cbn; rewrite Hm; reflexivity.
Qed.

Lemma consistent_init (t0 : Z) : consistent (init t0).
Proof.
  unfold consistent, init. cbn. repeat split; try discriminate; auto.
Qed.

Lemma consistent_start (w : World) :
  consistent w -> isAnalyzing (state w) = false ->
  consistent (commit (handleAnalyzeClick w)).
Proof.
  intros (Hm & _ & Hidle) Hna. destruct (Hidle Hna) as (Hp & Hq & _).
  rewrite commit_handleAnalyzeClick by congruence.
  unfold consistent. cbn. rewrite Hp. cbn.
  repeat split; try discriminate; eauto.
  exists (Progress.now (sim w)). now apply Progress.reach_mount.
Qed.

Lemma consistent_step (w w' : World) :
  consistent w -> step w w' -> consistent w'.
Proof.
  intros Hc Hstep. destruct Hstep as [e w | i o w Hi | w s' Hs].
  - (* the user *)
    destruct e; cbn [App.user].
    + unfold render; cbn [analyzeDisabled].
      destruct (isAnalyzing (state w)) eqn:Hna; [exact Hc |].
      now apply consistent_start.
    + destruct (showError (render (state w))) eqn:Hse; [| exact Hc].
      apply consistent_start; [exact Hc |].
      unfold render in Hse; cbn in Hse.
      destruct (isAnalyzing (state w)); [discriminate | reflexivity].
    + exact Hc.
    + exact Hc.
    + exact Hc.
  - (* the call settles *)
    destruct Hc as (Hm & Hrun & Hidle).
    destruct (isAnalyzing (state w)) eqn:Hna.
    + destruct (Hrun eq_refl) as (Hr & He & (call & Hp & _) & (t0 & Hreach)).
      rewrite Hp in Hi. cbn in Hi. assert (i = 0) by lia. subst i.
      rewrite (settle_running o w call Hp Hm).
      unfold consistent. cbn.
      destruct (ProgressSpec.reachable_at_offset _ _ Hreach) as (k & j & _ & Hat).
      destruct (ProgressSpec.cleanup_at_offset _ _ _ _ Hat) as [Hq _].
      repeat split; try discriminate; auto.
      destruct o; auto.
    + destruct (Hidle eq_refl) as (Hp & _). rewrite Hp in Hi. cbn in Hi. lia.
  - (* a timer fires *)
    destruct Hc as (Hm & Hrun & Hidle).
    unfold consistent. cbn.
    destruct (isAnalyzing (state w)) eqn:Hna.
    + destruct (Hrun eq_refl) as (Hr & He & Hcall & (t0 & Hreach)).
      repeat split; try discriminate; auto.
      exists t0. now apply (Progress.reach_step _ (sim w)).
    + destruct (Hidle eq_refl) as (_ & Hq & _).
      now apply ProgressSpec.no_step_without_timers in Hs.
Qed.

Lemma reachable_consistent (w : World) : reachable w -> consistent w.
Proof.
  induction 1 as [t0 | w w' _ IH Hstep].
  - apply consistent_init.
  - exact (consistent_step _ _ IH Hstep).
Qed.

(** C3.  While the session is running, neither button can start a second
    analysis: the sidebar button is disabled and "Try Again" is not on
    screen, so the world stays exactly as it is, with the one request
    submitted by the running attempt still the only one in flight and
    the last one sent. *)
Theorem second_start_rejected (w : World) :
  reachable w ->
  sessionState (state w) = Running ->
  start w = w
  /\ retry w = w
  /\ exists call, pending w = [call] /\ hd_error (sent w) = Some call.
Proof.
  intros Hreach Hrun. apply running_iff in Hrun.
  destruct (reachable_consistent _ Hreach) as (_ & Hinv & _).
  destruct (Hinv Hrun) as (_ & _ & Hcall & _).
  unfold App.start, App.retry, App.user, render.
  cbn [analyzeDisabled showError]. rewrite Hrun. cbn [negb andb]. auto.
Qed.

(** C7.  In every reachable world the simulator holds a timer exactly
    when the session is running, which is exactly when the progress
    component is in the tree.  A step that makes the session running
    mounts it afresh; a step that ends the running state cleans it up. *)
Theorem simulator_active_iff_running (w : World) :
  reachable w ->
  (simulator_active w = true <-> sessionState (state w) = Running)
  /\ mounted w = simulator_active w
  /\ (forall w', step w w' ->
      sessionState (state w) <> Running ->
      sessionState (state w') = Running ->
      sim w' = Progress.mount (sim w))
  /\ (forall w', step w w' ->
      sessionState (state w) = Running ->
      sessionState (state w') <> Running ->
      sim w' = Progress.cleanup (sim w) /\ simulator_active w' = false).
Proof.
  intros Hreach. pose proof (reachable_consistent _ Hreach) as Hc.
  assert (Hactive : simulator_active w = isAnalyzing (state w)).
  { destruct Hc as (_ & Hrun & Hidle). unfold simulator_active.
    destruct (isAnalyzing (state w)) eqn:Hna.
    - destruct (Hrun eq_refl) as (_ & _ & _ & (t0 & Hr)).
      destruct (ProgressSpec.reachable_at_offset _ _ Hr)
        as (k & j & _ & [h (_ & _ & _ & _ & _ & _ & Hq)]).
      now rewrite Hq.
    - destruct (Hidle eq_refl) as (_ & Hq & _). now rewrite Hq. }
  split; [| split; [| split]].
  - rewrite Hactive. symmetry. apply running_iff.
  - rewrite Hactive. apply Hc.
  - intros w' Hstep Hnot Hrun'. rewrite running_iff in Hnot, Hrun'.
    destruct (isAnalyzing (state w)) eqn:Hna; [congruence |].
    assert (Hm : mounted w = false) by (destruct Hc as (-> & _); exact Hna).
    destruct Hc as (_ & _ & Hidle). destruct (Hidle Hna) as (Hp & Hq & _).
    destruct Hstep as [e w | i o w Hi | w s' Hs].
    + destruct e; cbn [App.user] in *;
        try (cbn in Hrun'; congruence).
      * unfold render in *; cbn [analyzeDisabled] in *. rewrite Hna in *.
        now rewrite commit_handleAnalyzeClick.
      * destruct (showError (render (state w))); [| congruence].
        now rewrite commit_handleAnalyzeClick.
    + rewrite Hp in Hi. cbn in Hi. lia.
    + now apply ProgressSpec.no_step_without_timers in Hs.
  - intros w' Hstep Hrun Hnot'. rewrite running_iff in Hrun, Hnot'.
    destruct Hc as (Hm & Hinv & _). rewrite Hrun in Hm.
    destruct (Hinv Hrun) as (_ & _ & (call & Hp & _) & (t0 & Hr)).
    destruct Hstep as [e w | i o w Hi | w s' Hs].
    + exfalso. apply Hnot'.
      destruct e; cbn [App.user]; unfold render;
        cbn [analyzeDisabled showError]; rewrite ?Hrun; cbn [negb andb];
        first [reflexivity | exact Hrun].
    + rewrite Hp in Hi. cbn in Hi. assert (i = 0) by lia. subst i.
      rewrite (settle_running o w call Hp Hm). cbn [sim].
      split; [reflexivity |]. unfold simulator_active. cbn [sim].
      destruct (ProgressSpec.reachable_at_offset _ _ Hr) as (k & j & _ & Hat).
      destruct (ProgressSpec.cleanup_at_offset _ _ _ _ Hat) as [Hq _].
      now rewrite Hq.
    + cbn in Hnot'. congruence.
Qed.

(** C10.  [handleAnalyzeClick] clears result and error before it calls the
    client: the request goes out from a world in which both are already
    [null], and every event that sends a request leaves the session running
    with both [null].  Hence in every reachable world at most one of the two
    is stored and, while running, neither is.  Results do get stored: the
    running attempt that resolves stores what it resolved with.  And a stored
    result does get cleared: when the results are on screen, the stored result
    is not [null], the next attempt sets it to [null] at once, and if that
    attempt fails the result stays [null] and only the message is kept. *)
Theorem result_and_error_cleared (w : World) :
  reachable w ->
  (exists w0,
      handleAnalyzeClick w = issue (current_request (state w0)) w0
      /\ sent w0 = sent w
      /\ analysisResult (state w0) = JNull
      /\ analysisError (state w0) = None)
  /\ (forall e,
      sent (user e w) <> sent w ->
      sessionState (state (user e w)) = Running
      /\ analysisResult (state (user e w)) = JNull
      /\ analysisError (state (user e w)) = None)
  /\ (analysisResult (state w) = JNull \/ analysisError (state w) = None)
  /\ (sessionState (state w) = Running ->
      analysisResult (state w) = JNull /\ analysisError (state w) = None)
  /\ (forall result,
      sessionState (state w) = Running ->
      analysisResult (state (settle 0 (Resolved result) w)) = result
      /\ analysisError (state (settle 0 (Resolved result) w)) = None)
  /\ (forall result message,
      sessionState (state w) = Succeeded result ->
      analysisResult (state w) = result
      /\ result <> JNull
      /\ analysisResult (state (start w)) = JNull
      /\ analysisResult (state (settle 0 (Rejected message) (start w))) = JNull
      /\ analysisError (state (settle 0 (Rejected message) (start w)))
         = Some message)
  /\ (forall message,
      sessionState (state w) <> Running ->
      sessionState (state (start w)) = Running
      /\ analysisResult (state (settle 0 (Rejected message) (start w))) = JNull
      /\ analysisError (state (settle 0 (Rejected message) (start w)))
         = Some message).
Proof.
  intros Hreach. pose proof (reachable_consistent _ Hreach) as Hc.
  assert (Hstart : forall message,
             isAnalyzing (state w) = false ->
             sessionState (state (start w)) = Running
             /\ analysisResult (state (start w)) = JNull
             /\ analysisResult (state (settle 0 (Rejected message) (start w)))
                = JNull
             /\ analysisError (state (settle 0 (Rejected message) (start w)))
                = Some message).
  { intros message Hna.
    assert (Hm : mounted w = false) by (destruct Hc as (-> & _); exact Hna).
    destruct Hc as (_ & _ & Hidle). destruct (Hidle Hna) as (Hp & _).
    unfold App.start, App.user, render. cbn [analyzeDisabled]. rewrite Hna.
    rewrite (commit_handleAnalyzeClick _ Hm). rewrite Hp. cbn [app].
    split; [now apply running_iff |]. split; [reflexivity |].
    erewrite settle_running; [| reflexivity | reflexivity].
    cbn. auto. }
  repeat apply conj.
  - exists (setAnalysisResult JNull
              (setAnalysisError None (setIsAnalyzing true w))).
    repeat split; reflexivity.
  - intros e Hsent.
    assert (Hev : user e w = commit (handleAnalyzeClick w)).
    { destruct e; cbn [App.user] in *;
        try (now contradiction Hsent).
      - destruct (analyzeDisabled (render (state w)));
          [now contradiction Hsent | reflexivity].
      - destruct (showError (render (state w)));
          [reflexivity | now contradiction Hsent]. }
    rewrite Hev. unfold commit.
    destruct (showProgress (render (state (handleAnalyzeClick w))));
      destruct (mounted (handleAnalyzeClick w));
      cbn [state]; (split; [now apply running_iff | split; reflexivity]).
  - destruct Hc as (_ & Hrun & Hidle).
    destruct (isAnalyzing (state w)) eqn:Hna.
    + left. apply (Hrun eq_refl).
    + apply (Hidle eq_refl).
  - intros Hrun. apply running_iff in Hrun.
    destruct Hc as (_ & Hinv & _). destruct (Hinv Hrun) as (? & ? & _). auto.
  - intros result Hrun. apply running_iff in Hrun.
    destruct Hc as (Hm & Hinv & _).
    destruct (Hinv Hrun) as (_ & He & (call & Hp & _) & _).
    rewrite (settle_running (Resolved result) w call Hp) by congruence.
    cbn. auto.
  - intros result message Hs.
    destruct (succeeded_stores _ _ Hs) as (Hna & Hres & Hnn).
    destruct (Hstart message Hna) as (_ & Hcl & Hr & He). auto.
  - intros message Hnot. rewrite running_iff in Hnot.
    destruct (isAnalyzing (state w)) eqn:Hna; [congruence |].
    destruct (Hstart message eq_refl) as (Hrun & _ & Hr & He). auto.
Qed.

(** C8, as the code has it.  "Try Again" runs the very handler the
    sidebar button runs: it submits the request the two inputs stand for
    when it is clicked.  That is the request of the failed attempt
    provided the inputs still hold what that attempt submitted. *)
Theorem retry_submits_current_inputs (w : World) (message : string) :
  reachable w ->
  sessionState (state w) = Failed message ->
  retry w = start w
  /\ retry w = commit (handleAnalyzeClick w)
  /\ pending (retry w) = [current_request (state w)]
  /\ hd_error (sent (retry w)) = Some (current_request (state w))
  /\ (hd_error (sent w) = Some (current_request (state w)) ->
      hd_error (sent (retry w)) = hd_error (sent w)).
Proof.
  intros Hreach Hfailed.
  destruct (failed_shows_retry _ _ Hfailed) as (Hna & Hshow & _).
  pose proof (reachable_consistent _ Hreach) as (Hm & _ & Hidle).
  destruct (Hidle Hna) as (Hp & _). rewrite Hna in Hm.
  assert (Hretry : retry w = commit (handleAnalyzeClick w)).
  { unfold App.retry, App.user. now rewrite Hshow. }
  assert (Hstart : start w = commit (handleAnalyzeClick w)).
  { unfold App.start, App.user, render. cbn [analyzeDisabled].
    now rewrite Hna. }
  rewrite Hretry, Hstart, (commit_handleAnalyzeClick _ Hm), Hp. cbn.
  repeat split; auto.
Qed.

Variable host : Host.


End WithEnv.

(** *** The example session *)

Lemma running_reachable : reachable None Examples.running.
Proof.
  apply (reach_step None (init 0)); [apply reach_init |].
  apply (step_user None ClickAnalyze).
Qed.

Lemma failed_reachable : reachable None Examples.failed.
Proof.
  apply (reach_step None Examples.running); [apply running_reachable |].
  apply step_settle. apply le_n.
Qed.

Lemma edited_reachable : reachable None Examples.edited.
Proof.
  apply (reach_step None Examples.failed); [apply failed_reachable |].
  apply (step_user None (ChangePath "src")).
Qed.

Lemma second_start_rejected_witness :
  start None Examples.running = Examples.running
  /\ retry None Examples.running = Examples.running
  /\ exists call,
      pending Examples.running = [call]
      /\ hd_error (sent Examples.running) = Some call.
Proof.
  exact (second_start_rejected None Examples.running running_reachable eq_refl).
Defined.

Lemma simulator_active_iff_running_witness :
  simulator_active Examples.running = true
  /\ sessionState (state Examples.running) = Running
  /\ mounted Examples.running = true
  /\ simulator_active Examples.failed = false.
Proof.
  pose proof (simulator_active_iff_running None Examples.running running_reachable)
    as (Hiff & Hm & _ & Hstop).
  assert (Hrun : sessionState (state Examples.running) = Running) by reflexivity.
  assert (Hactive : simulator_active Examples.running = true)
    by exact (proj2 Hiff Hrun).
  refine (conj Hactive (conj Hrun (conj (eq_trans Hm Hactive) _))).
  refine (proj2 (Hstop Examples.failed _ Hrun _)).
  - apply step_settle. apply le_n.
  - discriminate.
Defined.

Lemma succeeded_reachable : reachable None MoreExamples.succeeded.
Proof.
  apply (reach_step None Examples.running); [apply running_reachable |].
  apply step_settle. apply le_n.
Qed.

(** The result of a successful attempt is on screen; the next attempt is
    rejected, and the result is gone. *)
Lemma result_and_error_cleared_witness :
  analysisResult (state MoreExamples.succeeded) = MoreExamples.analysed
  /\ MoreExamples.analysed <> JNull
  /\ analysisResult (state (start None MoreExamples.succeeded)) = JNull
  /\ analysisResult (state (settle 0 (Rejected "again")
                             (start None MoreExamples.succeeded))) = JNull
  /\ analysisError (state (settle 0 (Rejected "again")
                            (start None MoreExamples.succeeded))) = Some "again".
Proof.
  pose proof (result_and_error_cleared None MoreExamples.succeeded
                succeeded_reachable)
    as (_ & _ & _ & _ & _ & Hclear & _).
  exact (Hclear MoreExamples.analysed "again" eq_refl).
Defined.

(** C8 as stated fails: after the attempt on ["."] has failed and the path
    input has been changed to ["src"], "Try Again" submits ["src"], not the
    request of the failed attempt. *)
Lemma retry_after_edit_differs :
  reachable None Examples.edited
  /\ sessionState (state Examples.edited) = Failed "Failed to fetch"
  /\ hd_error (sent Examples.edited)
     = Some (analyzeProject_call "http://localhost:8001" (Some ".") (Some None))
  /\ hd_error (sent (retry None Examples.edited))
     = Some (analyzeProject_call "http://localhost:8001" (Some "src") (Some None))
  /\ hd_error (sent (retry None Examples.edited))
     <> hd_error (sent Examples.edited).
Proof.
  split; [apply edited_reachable |].
  repeat split; try reflexivity. discriminate.
Qed.

Lemma retry_submits_current_inputs_witness :
  retry None Examples.failed = start None Examples.failed
  /\ hd_error (sent (retry None Examples.failed))
     = Some (current_request None (state Examples.failed))
  /\ hd_error (sent (retry None Examples.failed))
     = hd_error (sent Examples.failed).
Proof.
  pose proof (retry_submits_current_inputs None Examples.failed "Failed to fetch"
                failed_reachable eq_refl) as (Hsame & _ & _ & Hsent & Hkeep).
  exact (conj Hsame (conj Hsent (Hkeep eq_refl))).
Defined.



End AppSpec.

(* ================================================================= *)
(** * More on the progress animation *)

Module ProgressViewSpec.
Import JS Progress ProgressView.

(** X1.  On a host that fires timers on time, the animation holds exactly two
    timers at every moment: the interval recorded in [progressTimer] and the
    timeout recorded in [stageTimer], under distinct handles, neither of them
    overdue, the timeout being the one that ends the stage on screen. *)
Theorem two_timers_pending (t0 : Z) (w : World) :
  reachable t0 w ->
  exists ti ts,
    queue w = [ti; ts]
    /\ progressTimer w = Some (handle ti)
    /\ stageTimer w = Some (handle ts)
    /\ handle ti <> handle ts
    /\ period ti = Some 100%Z
    /\ period ts = None
    /\ callback ts = StageEnd (currentStage w)
    /\ (now w <= due ti)%Z /\ (now w <= due ts)%Z.
Proof.
  intros Hreach.
  destruct (ProgressSpec.reachable_at_offset _ _ Hreach)
    as (k & j & Hj & [h (Hnow & Hcs & _ & _ & Hpt & Hst & Hq)]).
  exists (tick_timer t0 k j h), (stage_timer t0 k (S h)).
  rewrite Hq, Hpt, Hst, Hcs, Hnow.
  unfold tick_timer, stage_timer; cbn [handle period callback due].
  repeat split; try reflexivity; unfold instant; lia.
Qed.

Lemma two_timers_pending_witness :
  exists ti ts,
    queue (run 200 (mount (idle_host 0))) = [ti; ts]
    /\ progressTimer (run 200 (mount (idle_host 0))) = Some (handle ti)
    /\ stageTimer (run 200 (mount (idle_host 0))) = Some (handle ts)
    /\ handle ti <> handle ts
    /\ period ti = Some 100%Z
    /\ period ts = None
    /\ callback ts = StageEnd (currentStage (run 200 (mount (idle_host 0))))
    /\ (now (run 200 (mount (idle_host 0))) <= due ti)%Z
    /\ (now (run 200 (mount (idle_host 0))) <= due ts)%Z.
Proof.
  apply (two_timers_pending 0). apply ProgressSpec.run_reachable.
  now apply reach_mount.
Defined.



(** X3.  On a host that fires timers on time the bar never fills: the value
    the guard of line 37 tests stays strictly below 100 after every tick, so
    the guard is never true and the percent shown is the running sum itself,
    never the clamped 100. *)
Theorem bar_never_fills (t0 : Z) (w : World) :
  reachable t0 w ->
  (100 <=? progressValue w)%float = false
  /\ progress w = progressValue w
  /\ (progress w <? 100)%float = true
  /\ (0 <=? progress w)%float = true.
Proof.
  intros Hreach.
  destruct (ProgressSpec.reachable_at_offset _ _ Hreach)
    as (k & j & Hj & [h (_ & _ & Hp & Hpv & _)]).
  destruct (ProgressSpec.below_100_facts j Hj) as (_ & Hlt & Hguard & H0 & _).
  rewrite Hp, Hpv. auto.
Qed.

Lemma bar_never_fills_witness :
  (100 <=? progressValue (run 120 (mount (idle_host 0))))%float = false
  /\ progress (run 120 (mount (idle_host 0)))
     = progressValue (run 120 (mount (idle_host 0)))
  /\ (progress (run 120 (mount (idle_host 0))) <? 100)%float = true
  /\ (0 <=? progress (run 120 (mount (idle_host 0))))%float = true.
Proof.
  apply (bar_never_fills 0). apply ProgressSpec.run_reachable.
  now apply reach_mount.
Defined.

(** *** A host that runs late *)

Lemma clamp_at_121 :
  (100 <=? after_ticks 121)%float = true
  /\ Math_min 100 100 = 100%float
  /\ (100 <=? 100)%float = true.
Proof. vm_compute. auto. Qed.

Lemma started_in_stage (stageIndex : nat) (log : list Tick) (w : World) :
  stageIndex < 3 -> in_stage (started stageIndex log w).
Proof.
  intros Hlt. split; [exact Hlt |]. left.
  exists (nextHandle w), 0, (now w + 100)%Z, (now w + 12000)%Z.
  repeat split; try reflexivity. lia.
Qed.

Lemma fire_interval_late (w : World) (h j : nat) (d1 d2 : Z) :
  currentStage w < 3 ->
  j <= 120 ->
  progress w = after_ticks j ->
  progressValue w = after_ticks j ->
  progressTimer w = Some h ->
  stageTimer w = Some (S h) ->
  queue w = [interval_of h d1; timeout_of (S h) d2 (currentStage w)] ->
  in_stage (fire (interval_of h d1) w).
Proof.
  intros Hlt Hj Hp Hpv Hpt Hst Hq.
  unfold fire, requeue, run_callback.
  cbn [callback period interval_of handle due]. rewrite Hq.
  cbn [map handle interval_of timeout_of].
  rewrite Nat.eqb_refl, ProgressSpec.handle_next_differs.
  cbn [with_host with_vars progressValue stageTimer progressTimer].
  rewrite Hpv.
  change (after_ticks j + progressIncrement)%float with (after_ticks (S j)).
  destruct (Nat.eq_dec j 120) as [-> | Hne].
  - (* the 121st tick: clamp, and the interval clears itself *)
    destruct clamp_at_121 as (Hguard & Hmin & _). rewrite Hguard.
    unfold clearInterval, clearTimer.
    cbn [with_host with_vars progressValue stageTimer progressTimer queue
         now nextHandle]. rewrite Hpt.
    unfold drop. cbn [filter handle interval_of timeout_of].
    rewrite Nat.eqb_refl, ProgressSpec.handle_next_differs.
    cbn [negb progressValue with_host with_vars]. rewrite Hmin.
    split; [exact Hlt |]. right. exists h, d2. cbn.
    repeat split; try reflexivity; assumption.
  - rewrite (ProgressSpec.guard_false (S j)) by lia.
    cbn [with_vars progressValue].
    rewrite (ProgressSpec.Math_min_below (S j)) by lia.
    split; [exact Hlt |]. left. exists h, (S j), (d1 + 100)%Z, d2. cbn.
    repeat split; try assumption; try reflexivity. lia.
Qed.

Lemma fire_timeout_late (w : World) (h : nat) (d2 : Z) (rest : list Timer) :
  currentStage w < 3 ->
  progressTimer w = Some h ->
  queue w = (rest ++ [timeout_of (S h) d2 (currentStage w)])%list ->
  (rest = [] \/ exists d1, rest = [interval_of h d1]) ->
  in_stage (fire (timeout_of (S h) d2 (currentStage w)) w).
Proof.
  intros Hlt Hpt Hq Hrest.
  unfold fire, requeue, run_callback.
  cbn [callback period timeout_of handle due]. rewrite Hq.
  unfold clearInterval, clearTimer.
  cbn [with_host progressTimer]. rewrite Hpt.
  cbn [with_host queue now nextHandle].
  assert (Hempty : drop h (drop (S h)
                              (rest ++ [timeout_of (S h) d2 (currentStage w)])%list)
                   = []).
  { destruct Hrest as [-> | [d1 ->]]; unfold drop; cbn [app filter handle
      interval_of timeout_of];
      rewrite ?Nat.eqb_refl, ?(Nat.eqb_sym h (S h)),
        ?ProgressSpec.handle_next_differs; cbn [negb filter handle];
      rewrite ?Nat.eqb_refl; reflexivity. }
  rewrite Hempty. rewrite Nat.add_1_r, ProgressSpec.startStage_next;
    [| exact Hlt | reflexivity].
  apply started_in_stage. apply Nat.mod_upper_bound. lia.
Qed.

Lemma reachable_late_in_stage (w : World) : reachable_late w -> in_stage w.
Proof.
  induction 1 as [w0 Hq | w w' Hreach IH Hstep].
  - rewrite (ProgressSpec.mount_started _ Hq). apply started_in_stage. lia.
  - destruct Hstep as [w t Hin]. destruct IH as [Hlt [Htick | Hclamp]].
    + destruct Htick as (h & j & d1 & d2 & Hj & Hp & Hpv & Hpt & Hst & Hq).
      rewrite Hq in Hin. destruct Hin as [<- | [<- | []]].
      * now apply (fire_interval_late w h j d1 d2).
      * apply (fire_timeout_late w h d2 [interval_of h d1]); eauto.
    + destruct Hclamp as (h & d2 & Hp & Hpv & Hpt & Hst & Hq).
      rewrite Hq in Hin. destruct Hin as [<- | []].
      apply (fire_timeout_late w h d2 []); auto.
Qed.

Lemma run_late_reachable (fuel : nat) (w : World) :
  reachable_late w -> reachable_late (run_late fuel w).
Proof.
  revert w. induction fuel as [| fuel IH]; intros w Hreach; [exact Hreach |].
  cbn [run_late]. destruct (queue w) as [| t q] eqn:Hq; [exact Hreach |].
  apply IH. apply (late_step w); [exact Hreach |].
  apply step_late_fire. rewrite Hq. now left.
Qed.

Lemma cleanup_in_stage (w : World) : in_stage w -> queue (cleanup w) = [].
Proof.
  intros [_ [(h & j & d1 & d2 & _ & _ & _ & Hpt & Hst & Hq)
            | (h & d2 & _ & _ & Hpt & Hst & Hq)]];
    unfold cleanup, clearTimeout, clearInterval, clearTimer;
    rewrite Hst; cbn [with_host progressTimer]; rewrite Hpt;
    cbn [with_host queue]; rewrite Hq; unfold drop;
    cbn [filter handle interval_of timeout_of];
    rewrite ?Nat.eqb_refl, ?(Nat.eqb_sym h (S h)),
      ?ProgressSpec.handle_next_differs; cbn [negb filter handle];
    rewrite ?Nat.eqb_refl; reflexivity.
Qed.

(** The cleanup touches the host's queue only: what is on screen stays. *)
Lemma cleanup_keeps_view (w : World) :
  progress (cleanup w) = progress w /\ currentStage (cleanup w) = currentStage w.
Proof.
  unfold cleanup, clearTimeout, clearInterval, clearTimer.
  destruct (stageTimer w); cbn [with_host progressTimer];
    destruct (progressTimer w); split; reflexivity.
Qed.

(** The tick that finds [progressValue >= 100]. *)
Lemma fire_interval_clamps (w : World) (h : nat) (d1 d2 : Z) :
  progressValue w = after_ticks 120 ->
  progressTimer w = Some h ->
  queue w = [interval_of h d1; timeout_of (S h) d2 (currentStage w)] ->
  progress (fire (interval_of h d1) w) = 100%float
  /\ currentStage (fire (interval_of h d1) w) = currentStage w
  /\ queue (fire (interval_of h d1) w) = [timeout_of (S h) d2 (currentStage w)].
Proof.
  intros Hpv Hpt Hq.
  unfold fire, requeue, run_callback.
  cbn [callback period interval_of handle due]. rewrite Hq.
  cbn [map handle interval_of timeout_of].
  rewrite Nat.eqb_refl, ProgressSpec.handle_next_differs.
  cbn [with_host with_vars progressValue stageTimer progressTimer].
  rewrite Hpv.
  change (after_ticks 120 + progressIncrement)%float with (after_ticks 121).
  destruct clamp_at_121 as (Hguard & Hmin & _). rewrite Hguard.
  unfold clearInterval, clearTimer.
  cbn [with_host with_vars progressValue stageTimer progressTimer queue
       now nextHandle]. rewrite Hpt.
  unfold drop. cbn [filter handle interval_of timeout_of].
  rewrite Nat.eqb_refl, ProgressSpec.handle_next_differs.
  cbn [negb progressValue with_host with_vars]. rewrite Hmin.
  cbn. repeat split; reflexivity.
Qed.

(** X4.  On a host that fires pending timers late and in any order, the
    percent still never leaves 0..100 and the stage index never leaves the
    stage list; one or two timers are pending, never more.  A tick that finds
    the new value at 100 or more (line 37) sets the percent to exactly 100 and
    clears its own interval, so that only the stage's timeout is left, the
    stage staying what it is.  The cleanup changes neither the percent nor the
    stage, so the bounds hold after it too, and it leaves no timer, so nothing
    fires after it. *)
Theorem late_host_bounded (w : World) :
  reachable_late w ->
  (0 <=? progress w)%float = true
  /\ (progress w <=? 100)%float = true
  /\ currentStage w < List.length stages
  /\ 1 <= List.length (queue w) <= 2
  /\ (forall t,
      In t (queue w) ->
      callback t = ProgressTick progressIncrement ->
      (100 <=? progressValue w + progressIncrement)%float = true ->
      progress (fire t w) = 100%float
      /\ currentStage (fire t w) = currentStage w
      /\ exists h d, queue (fire t w) = [timeout_of h d (currentStage w)])
  /\ ((0 <=? progress (cleanup w))%float = true
      /\ (progress (cleanup w) <=? 100)%float = true
      /\ currentStage (cleanup w) < List.length stages)
  /\ queue (cleanup w) = []
  /\ (forall w', ~ step_late (cleanup w) w').
Proof.
  intros Hreach. pose proof (reachable_late_in_stage _ Hreach) as Hin.
  pose proof (cleanup_in_stage _ Hin) as Hclean.
  destruct (cleanup_keeps_view w) as [Hkp Hkc].
  destruct Hin as [Hlt Hcases].
  assert (Hbounds : (0 <=? progress w)%float = true
                    /\ (progress w <=? 100)%float = true
                    /\ 1 <= List.length (queue w) <= 2).
  { destruct Hcases as [(h & j & d1 & d2 & Hj & Hp & _ & _ & _ & Hq)
                       | (h & d2 & Hp & _ & _ & _ & Hq)];
      rewrite Hp, Hq; cbn [List.length].
    - destruct (ProgressSpec.percent_bounds j Hj). repeat split; auto.
    - repeat split; auto. }
  destruct Hbounds as (H0 & H100 & Hlen).
  assert (Hclamp : forall t,
             In t (queue w) ->
             callback t = ProgressTick progressIncrement ->
             (100 <=? progressValue w + progressIncrement)%float = true ->
             progress (fire t w) = 100%float
             /\ currentStage (fire t w) = currentStage w
             /\ exists h d, queue (fire t w) = [timeout_of h d (currentStage w)]).
  { intros t Ht Hcb Hguard.
    destruct Hcases as [(h & j & d1 & d2 & Hj & _ & Hpv & Hpt & _ & Hq)
                       | (h & d2 & _ & _ & _ & _ & Hq)];
      rewrite Hq in Ht.
    - destruct Ht as [<- | [<- | []]]; [| discriminate Hcb].
      assert (Hj120 : j = 120).
      { destruct (Nat.eq_dec j 120) as [-> | Hne]; [reflexivity |].
        rewrite Hpv in Hguard.
        change (after_ticks j + progressIncrement)%float
          with (after_ticks (S j)) in Hguard.
        rewrite (ProgressSpec.guard_false (S j)) in Hguard by lia.
        discriminate. }
      subst j.
      destruct (fire_interval_clamps w h d1 d2 Hpv Hpt Hq) as (Hp & Hc & Hq').
      repeat split; [exact Hp | exact Hc | eauto].
    - destruct Ht as [<- | []]. discriminate Hcb. }
  repeat apply conj; try assumption; try apply Hlen.
  - now rewrite Hkp.
  - now rewrite Hkp.
  - now rewrite Hkc.
  - intros w' Hstep. destruct Hstep as [w1 t Hin1]. rewrite Hclean in Hin1.
    destruct Hin1.
Qed.

(** The late host at work: the first timer of the queue fires 120 times in a
    row, the timeout waiting; the 121st tick finds the new value at 100 or
    more, sets the percent to exactly 100 and leaves the timeout alone in the
    queue. *)
Lemma late_host_bounded_witness :
  let w := run_late 120 (mount (idle_host 0)) in
  let t := interval_of 0 12100 in
  In t (queue w)
  /\ (100 <=? progressValue w + progressIncrement)%float = true
  /\ (progress w <? 100)%float = true
  /\ progress (fire t w) = 100%float
  /\ currentStage (fire t w) = currentStage w
  /\ (exists h d, queue (fire t w) = [timeout_of h d (currentStage w)])
  /\ queue (cleanup w) = [].
Proof.
  intros w t.
  assert (Hreach : reachable_late w)
    by (apply run_late_reachable; now apply late_mount).
  assert (Hin : In t (queue w)) by (vm_compute; now left).
  assert (Hguard : (100 <=? progressValue w + progressIncrement)%float = true)
    by (vm_compute; reflexivity).
  pose proof (late_host_bounded w Hreach)
    as (_ & _ & _ & _ & Hclamp & _ & Hclean & _).
  destruct (Hclamp t Hin eq_refl Hguard) as (Hp & Hc & Hq).
  refine (conj Hin (conj Hguard (conj _ (conj Hp (conj Hc (conj Hq Hclean)))))).
  vm_compute. reflexivity.
Defined.

End ProgressViewSpec.

(* ================================================================= *)
(** * More on the session and its pages *)

Module SessionSpec.
Import JS Api App Pages.

Section WithEnv.
Variable VITE_API_BASE_URL : option string.

#[local] Abbreviation step := (App.step VITE_API_BASE_URL).
#[local] Abbreviation reachable := (App.reachable VITE_API_BASE_URL).
#[local] Abbreviation retry := (App.retry VITE_API_BASE_URL).
#[local] Abbreviation current_request := (App.current_request VITE_API_BASE_URL).



(** X7.  When the running attempt is rejected the message is stored as it is,
    but the error box and its "Try Again" button appear only for a non-empty
    message; with an empty one the welcome screen is back, as before any
    attempt, and "Try Again" does nothing.  The results never appear. *)
Theorem rejection_on_screen (w : World) (message : string) :
  reachable w ->
  sessionState (state w) = Running ->
  let w' := settle 0 (Rejected message) w in
  analysisError (state w') = Some message
  /\ analysisResult (state w') = JNull
  /\ showResults (render (state w')) = false
  /\ showError (render (state w')) = negb (String.eqb message "")
  /\ showWelcome (render (state w')) = String.eqb message ""
  /\ (message <> "" -> sessionState (state w') = Failed message)
  /\ (message = "" -> sessionState (state w') = Idle /\ retry w' = w').
Proof.
  intros Hreach Hrun w'. apply AppSpec.running_iff in Hrun.
  destruct (AppSpec.reachable_consistent _ _ Hreach) as (Hm & Hinv & _).
  rewrite Hrun in Hm.
  destruct (Hinv Hrun) as (Hr & _ & (call & Hp & _) & _).
  assert (Hw' : w' = settle 0 (Rejected message) w) by reflexivity.
  rewrite (AppSpec.settle_running _ w call Hp Hm) in Hw'.
  rewrite Hw'. unfold App.retry, App.user, sessionState, render.
  cbn [state analysisResult analysisError isAnalyzing showProgress showError
       showResults showWelcome of_nullable ToBoolean negb andb].
  rewrite Hr. cbn [ToBoolean andb].
  destruct (String.eqb_spec message "") as [-> | Hne]; cbn [negb andb].
  - repeat apply conj; try reflexivity.
    + intros Hne. now contradiction Hne.
    + intros _. split; reflexivity.
  - repeat apply conj; try reflexivity.
    intros Heq. contradiction.
Qed.


End WithEnv.

(** *** The example sessions again *)

(** A [400] whose [detail] is the empty list rejects with the empty message,
    and the session is back at the welcome screen. *)
Lemma rejection_on_screen_witness :
  let o := analyzeProject_settle Examples.example_host
             (Responded MoreExamples.empty_detail) in
  let w' := settle 0 (Rejected "") Examples.running in
  o = Rejected ""
  /\ analysisError (state w') = Some ""
  /\ showError (render (state w')) = false
  /\ showWelcome (render (state w')) = true
  /\ sessionState (state w') = Idle
  /\ retry None w' = w'.
Proof.
  intros o w'.
  pose proof (rejection_on_screen None Examples.running "" AppSpec.running_reachable
                eq_refl) as (He & _ & _ & Hse & Hsw & _ & Hidle).
  exact (conj eq_refl (conj He (conj Hse (conj Hsw (Hidle eq_refl))))).
Defined.


End SessionSpec.

(* ================================================================= *)
(** * The results page *)

Module PagesSpec.
Import JS Api App Pages.

Lemma last_default {A} (l : list A) (x d d' : A) :
  last (x :: l) d = last (x :: l) d'.
Proof.
  revert x. induction l as [| y l IH]; intros x; [reflexivity |].
  change (last (y :: l) d = last (y :: l) d'). apply IH.
Qed.

Lemma activeTab_after_last (clicks : list Tab) :
  activeTab_after clicks = tab_name (last clicks Tab1).
Proof.
  unfold activeTab_after.
  change "stage1" with (tab_name Tab1) at 1.
  generalize Tab1. induction clicks as [| t clicks IH]; intros t0;
    [reflexivity |].
  cbn [fold_left]. rewrite (IH t).
  destruct clicks as [| t1 clicks]; [reflexivity |].
  f_equal. change (last (t1 :: clicks) t = last (t1 :: clicks) t0).
  apply last_default.
Qed.

(** X9.  Whatever tabs are clicked, exactly one panel is drawn: that of the
    last tab clicked, or of stage 1 before any click.  It shows the stage's
    value when the value is truthy (an empty object or list included) and the
    "no data" notice when the stage is missing, [null], [false], 0 or the
    empty string. *)
Theorem one_panel_drawn (props : Props) (clicks : list Tab) :
  let r := AnalysisResults props (activeTab_after clicks) in
  let t := last clicks Tab1 in
  List.length (filter drawn (panels r)) = 1
  /\ panel_of t r
     = Some (if ToBoolean (stage_of t props) then Data (stage_of t props) else Empty)
  /\ (forall t', t' <> t -> panel_of t' r = None).
Proof.
  intros r t. subst r t. rewrite activeTab_after_last.
  unfold AnalysisResults, panels, panel.
  destruct (last clicks Tab1); cbn;
    (repeat split; [intros t' Hne; destruct t'; try reflexivity; contradiction]).
Qed.

End PagesSpec.

(* ================================================================= *)
(** * Provider settings *)

Module SettingsSpec.
Import JS Api Settings.

(** X10.  [updateSettings] on a response outside 2xx always rejects with a
    message that starts with ["Failed to update settings: "], unlike
    [analyzeProject]: it goes on with a string [detail] as it is, with
    ["Unknown error during update."] when the body is JSON other than [null]
    without a truthy [detail], and with the status text when the body is not
    JSON or is [null].  On a 2xx response it resolves with the parsed body,
    whatever that is, and rejects with the parser's message when the body is
    not JSON. *)
Theorem update_error_tiers (host : Host) (response : Response) :
  (ok response = false ->
   (forall props X,
       json response = JsonValue (JObject props) ->
       lookup "detail" props = Some (JString X) -> X <> "" ->
       updateSettings_settle host (Responded response)
       = Rejected ("Failed to update settings: " ++ X))
   /\ (forall errorData,
       json response = JsonValue errorData -> errorData <> JNull ->
       (forall props d, errorData = JObject props ->
                        lookup "detail" props = Some d -> ToBoolean (Some d) = false) ->
       updateSettings_settle host (Responded response)
       = Rejected "Failed to update settings: Unknown error during update.")
   /\ ((json response = JsonValue JNull \/ exists e, json response = JsonSyntaxError e) ->
       updateSettings_settle host (Responded response)
       = Rejected ("Failed to update settings: " ++ statusText response)))
  /\ (ok response = true ->
      (forall v, json response = JsonValue v ->
                 updateSettings_settle host (Responded response) = Resolved v)
      /\ (forall e, json response = JsonSyntaxError e ->
                    updateSettings_settle host (Responded response) = Rejected e)).
Proof.
  unfold updateSettings_settle. split; intros Hok; rewrite Hok; cbn [negb].
  - split; [| split].
    + intros props X -> Hd HX. cbn [bind Get_detail]. rewrite Hd.
      apply ApiSpec.truthy_string in HX. cbn [bind]. rewrite HX. reflexivity.
    + intros errorData -> Hnn Hfalsy.
      destruct errorData; try congruence; try reflexivity.
      cbn [bind Get_detail].
      destruct (lookup "detail" props) as [d |] eqn:Hd; [| reflexivity].
      cbn [bind]. rewrite (Hfalsy props d eq_refl Hd). reflexivity.
    + intros [-> | [e ->]]; reflexivity.
  - split; [intros v -> | intros e ->]; reflexivity.
Qed.

Lemma update_error_tiers_witness :
  updateSettings_settle Examples.example_host (Responded Examples.boom)
  = Rejected "Failed to update settings: boom"
  /\ updateSettings_settle Examples.example_host (Responded Examples.null_error)
     = Rejected "Failed to update settings: Internal Server Error"
  /\ updateSettings_settle Examples.example_host
       (Responded MoreExamples.ollama_settings)
     = Resolved (JObject [("llm_provider", JString "ollama")]).
Proof.
  refine (conj _ (conj _ _)).
  - refine (proj1 (proj1 (update_error_tiers Examples.example_host Examples.boom)
                     eq_refl)
              [("detail", JString "boom")] "boom" eq_refl eq_refl _).
    discriminate.
  - refine (proj2 (proj2 (proj1 (update_error_tiers Examples.example_host
                                   Examples.null_error) eq_refl)) _).
    now left.
  - exact (proj1 (proj2 (update_error_tiers Examples.example_host
                           MoreExamples.ollama_settings) eq_refl)
             _ eq_refl).
Defined.

Section Panel.
Variable baseUrl : string.

#[local] Abbreviation mounted := (Settings.mounted baseUrl).
#[local] Abbreviation user := (Settings.user baseUrl).
#[local] Abbreviation step := (Settings.step baseUrl).
#[local] Abbreviation steps := (Settings.steps baseUrl).
#[local] Abbreviation reachable := (Settings.reachable baseUrl).

Lemma settle_one (o : Outcome) (w : World) (c : Call) :
  pending w = [c] ->
  settle 0 o w
  = match c with
    | Load _ => fetchSettings_resume o
    | Save _ => handleSave_resume o
    end {| state := state w; pending := []; sent := sent w |}.
Proof. intros Hp. unfold settle. rewrite Hp. destruct c; reflexivity. Qed.

Lemma resume_not_loading (o : Outcome) (c : Call) (w : World) :
  loading (state (match c with
                  | Load _ => fetchSettings_resume o
                  | Save _ => handleSave_resume o
                  end w)) = false
  /\ pending (match c with
              | Load _ => fetchSettings_resume o
              | Save _ => handleSave_resume o
              end w) = pending w
  /\ sent (match c with
           | Load _ => fetchSettings_resume o
           | Save _ => handleSave_resume o
           end w) = sent w.
Proof.
  destruct c, o as [v | m]; cbn; try (repeat split; reflexivity).
  destruct (Get_llm_provider v); repeat split; reflexivity.
Qed.

Lemma panel_consistent_step (w w' : World) :
  consistent w -> step w w' -> consistent w'.
Proof.
  intros Hc Hstep. destruct Hstep as [e w | i o w Hi].
  - pose proof Hc as [Hload Hidle].
    unfold Settings.user, render.
    destruct (loading (state w)) eqn:Hl.
    + destruct e; exact Hc.
    + cbn [orb]. destruct e.
      * split; cbn; [congruence | intros _; now apply Hidle].
      * destruct (includes "Saving" (status (state w))); [exact Hc |].
        split; cbn; [| discriminate].
        intros _. rewrite (Hidle eq_refl). cbn [app]. eauto.
  - destruct Hc as [Hload Hidle].
    destruct (loading (state w)) eqn:Hl.
    + destruct (Hload eq_refl) as [c Hp]. rewrite Hp in Hi. cbn in Hi.
      assert (i = 0) by lia. subst i. rewrite (settle_one o w c Hp).
      destruct (resume_not_loading o c
                  {| state := state w; pending := []; sent := sent w |})
        as (Hl' & Hp' & _).
      split; [congruence | intros _; exact Hp'].
    + rewrite (Hidle eq_refl) in Hi. cbn in Hi. lia.
Qed.

Lemma panel_reachable_consistent (w : World) : reachable w -> consistent w.
Proof.
  induction 1 as [| w w' _ IH Hstep].
  - split; cbn; [eauto | discriminate].
  - exact (panel_consistent_step _ _ IH Hstep).
Qed.


Lemma resume_state (o : Outcome) (w : World) :
  state (fetchSettings_resume o w)
  = match loaded o with
    | Some p => {| provider := p; loading := false; status := status (state w) |}
    | None => {| provider := JString "openrouter"; loading := false;
                 status := "Error loading settings." |}
    end.
Proof.
  destruct o as [v | m]; [| reflexivity].
  unfold fetchSettings_resume, loaded.
  destruct (Get_llm_provider v); reflexivity.
Qed.

Lemma loaded_truthy (o : Outcome) (p : Json) :
  loaded o = Some p -> ToBoolean (Some p) = true.
Proof.
  destruct o as [v | m]; [| discriminate]. unfold loaded.
  destruct (Get_llm_provider v) as [[q |] |]; try discriminate.
  - destruct (ToBoolean (Some q)) eqn:Hq; intros [= <-]; [exact Hq | reflexivity].
  - intros [= <-]. reflexivity.
Qed.

Lemma loaded_failure (r : FetchResult) :
  ((exists m, r = NetworkFailure m)
   \/ exists response,
        r = Responded response
        /\ (ok response = false \/ json response = JsonValue JNull
            \/ exists e, json response = JsonSyntaxError e)) ->
  loaded (getSettings_settle r) = None.
Proof.
  intros [[m ->] | (response & -> & Hcase)]; [reflexivity |].
  unfold getSettings_settle.
  destruct (ok response); cbn [negb]; [| reflexivity].
  destruct Hcase as [Hk | [-> | [e ->]]]; [discriminate | reflexivity | reflexivity].
Qed.

Lemma loaded_success (response : Response) (props : list (string * Json)) (p : Json) :
  ok response = true ->
  json response = JsonValue (JObject props) ->
  lookup "llm_provider" props = Some p -> ToBoolean (Some p) = true ->
  loaded (getSettings_settle (Responded response)) = Some p.
Proof.
  intros Hok Hjson Hp Ht. unfold getSettings_settle.
  rewrite Hok, Hjson. cbn [negb loaded Get_llm_provider]. now rewrite Hp, Ht.
Qed.

Lemma loaded_default (response : Response) (settings : Json) :
  ok response = true ->
  json response = JsonValue settings ->
  settings <> JNull ->
  (forall props p, settings = JObject props ->
                   lookup "llm_provider" props = Some p ->
                   ToBoolean (Some p) = false) ->
  loaded (getSettings_settle (Responded response)) = Some (JString "openrouter").
Proof.
  intros Hok Hjson Hnn Hfalsy. unfold getSettings_settle.
  rewrite Hok, Hjson. cbn [negb loaded].
  destruct settings; try congruence; try reflexivity.
  cbn [Get_llm_provider].
  destruct (lookup "llm_provider" props) as [p |] eqn:Hp; [| reflexivity].
  now rewrite (Hfalsy props p eq_refl Hp).
Qed.

(** X11.  However the first [getSettings] ends, the panel leaves its loading
    state with a truthy provider and the save button enabled; the initial
    empty provider is always replaced.  Every failure (no network, a status
    outside 2xx whatever its body, a body that is not JSON, the JSON [null])
    gives the provider ["openrouter"] and the status
    ["Error loading settings."]; a 2xx object with a truthy [llm_provider]
    gives that value and no status; any other 2xx body (no [llm_provider], a
    falsy one, or JSON that is no object) gives ["openrouter"] and no
    status. *)
Theorem load_always_settles (r : FetchResult) :
  let w := settle 0 (getSettings_settle r) mounted in
  loading (state w) = false
  /\ pending w = []
  /\ ToBoolean (Some (provider (state w))) = true
  /\ save_enabled (state w) = true
  /\ (status (state w) = ""
      \/ (status (state w) = "Error loading settings."
          /\ provider (state w) = JString "openrouter"))
  /\ (((exists m, r = NetworkFailure m)
       \/ exists response,
            r = Responded response
            /\ (ok response = false \/ json response = JsonValue JNull
                \/ exists e, json response = JsonSyntaxError e)) ->
      status (state w) = "Error loading settings."
      /\ provider (state w) = JString "openrouter")
  /\ (forall response props p,
      r = Responded response -> ok response = true ->
      json response = JsonValue (JObject props) ->
      lookup "llm_provider" props = Some p -> ToBoolean (Some p) = true ->
      provider (state w) = p /\ status (state w) = "")
  /\ (forall response settings,
      r = Responded response -> ok response = true ->
      json response = JsonValue settings -> settings <> JNull ->
      (forall props p, settings = JObject props ->
                       lookup "llm_provider" props = Some p ->
                       ToBoolean (Some p) = false) ->
      provider (state w) = JString "openrouter" /\ status (state w) = "")
  /\ provider (state w) <> provider (state mounted).
Proof.
  intros w.
  assert (Hw : w = fetchSettings_resume (getSettings_settle r)
                     {| state := {| provider := JString ""; loading := true;
                                    status := "" |};
                        pending := [];
                        sent := [getSettings_call baseUrl] |}) by reflexivity.
  assert (Hp : pending w = []).
  { rewrite Hw. destruct (resume_not_loading (getSettings_settle r)
                            (Load (getSettings_call baseUrl))
                            {| state := {| provider := JString ""; loading := true;
                                           status := "" |};
                               pending := [];
                               sent := [getSettings_call baseUrl] |})
      as (_ & Hpend & _). exact Hpend. }
  assert (Hs : state w
               = match loaded (getSettings_settle r) with
                 | Some p => {| provider := p; loading := false; status := "" |}
                 | None => {| provider := JString "openrouter"; loading := false;
                              status := "Error loading settings." |}
                 end).
  { rewrite Hw. apply resume_state. }
  unfold save_enabled, render. rewrite Hs.
  split; [| split; [exact Hp | split; [| split; [| split; [| split;
                                                            [| split; [| split]]]]]]].
  - destruct (loaded (getSettings_settle r)); reflexivity.
  - destruct (loaded (getSettings_settle r)) as [p |] eqn:Hl; cbn [provider].
    + exact (loaded_truthy _ _ Hl).
    + reflexivity.
  - destruct (loaded (getSettings_settle r)); reflexivity.
  - destruct (loaded (getSettings_settle r)); cbn; auto.
  - intros Hfail. rewrite (loaded_failure r Hfail). auto.
  - intros response props p -> Hok Hjson Hl Ht.
    rewrite (loaded_success response props p Hok Hjson Hl Ht). auto.
  - intros response settings -> Hok Hjson Hnn Hfalsy.
    rewrite (loaded_default response settings Hok Hjson Hnn Hfalsy). auto.
  - destruct (loaded (getSettings_settle r)) as [p |] eqn:Hl; cbn [provider].
    + pose proof (loaded_truthy _ _ Hl) as Ht. intros Heq.
      change (provider (state mounted)) with (JString "") in Heq.
      rewrite Heq in Ht. discriminate Ht.
    + discriminate.
Qed.


(** A pending save shows in the status. *)
Lemma pending_save_status (w : World) :
  reachable w ->
  forall request, pending w = [Save request] -> status (state w) = "Saving...".
Proof.
  induction 1 as [| w w' Hreach IH Hstep]; intros request Hp.
  - discriminate Hp.
  - destruct (panel_reachable_consistent _ Hreach) as [Hload Hidle].
    destruct Hstep as [e w | i o w Hi].
    + revert Hp. unfold Settings.user, render.
      destruct (loading (state w)) eqn:Hl.
      * destruct e; apply IH.
      * cbn [orb]. rewrite (Hidle eq_refl) in *. destruct e.
        -- cbn. rewrite (Hidle eq_refl). discriminate.
        -- destruct (includes "Saving" (status (state w)));
             [rewrite (Hidle eq_refl); discriminate | reflexivity].
    + exfalso. destruct (loading (state w)) eqn:Hl.
      * destruct (Hload eq_refl) as [c Hc]. rewrite Hc in Hi. cbn in Hi.
        assert (i = 0) by lia. subst i. rewrite (settle_one o w c Hc) in Hp.
        destruct (resume_not_loading o c
                    {| state := state w; pending := []; sent := sent w |})
          as (_ & Hp' & _).
        rewrite Hp' in Hp. discriminate Hp.
      * rewrite (Hidle eq_refl) in Hi. cbn in Hi. lia.
Qed.

(** X13.  While a save is pending the status is ["Saving..."] and the panel
    draws its loading notice only, so no event changes anything and no second
    save can be sent.  Whenever the status contains "Saving" the save button
    is not enabled and a click on it does nothing.  And once the status
    contains "Saving" while nothing is loading, which is what a rejected save
    leaves when its message contains that word, the button stays disabled for
    good: whatever the user does next, no request is sent and the status does
    not change. *)
Theorem save_locked_out (w w' : World) :
  reachable w ->
  (forall request,
      In (Save request) (pending w) ->
      pending w = [Save request]
      /\ status (state w) = "Saving..."
      /\ render (state w) = LoadingSettings
      /\ (forall e, user e w = w))
  /\ (includes "Saving" (status (state w)) = true ->
      save_enabled (state w) = false /\ user ClickSave w = w)
  /\ (loading (state w) = false ->
      includes "Saving" (status (state w)) = true ->
      steps w w' ->
      sent w' = sent w
      /\ status (state w') = status (state w)
      /\ loading (state w') = false
      /\ save_enabled (state w') = false).
Proof.
  intros Hreach.
  pose proof (panel_reachable_consistent _ Hreach) as [Hload Hidle].
  split; [| split].
  - intros request Hin.
    destruct (loading (state w)) eqn:Hl.
    + destruct (Hload eq_refl) as [c Hc]. rewrite Hc in Hin.
      destruct Hin as [-> | []].
      split; [exact Hc |].
      split; [exact (pending_save_status _ Hreach _ Hc) |].
      unfold Settings.user, render. rewrite Hl.
      split; [reflexivity | intros e; destruct e; reflexivity].
    + rewrite (Hidle eq_refl) in Hin. destruct Hin.
  - intros Hs. unfold save_enabled, Settings.user, render.
    destruct (loading (state w)); [auto |]. rewrite Hs. auto.
  - intros Hl Hs Hsteps.
    pose proof (Hidle Hl) as Hp. clear Hreach Hload Hidle.
    induction Hsteps as [w | w w1 w2 Hstep _ IH].
    + unfold save_enabled, render. rewrite Hl, Hs. auto.
    + assert (Hkeep : sent w1 = sent w /\ status (state w1) = status (state w)
                      /\ loading (state w1) = false /\ pending w1 = []).
      { destruct Hstep as [e w | i o w Hi].
        - unfold Settings.user, render. rewrite Hl, Hs. cbn [orb].
          destruct e; cbn; auto.
        - rewrite Hp in Hi. cbn in Hi. lia. }
      destruct Hkeep as (Hsent & Hst & Hl1 & Hp1).
      rewrite <- Hsent, <- Hst. apply IH; congruence.
Qed.


(** X14.  At most one settings request is in flight.  While one is, the panel
    draws only its loading notice, so there is nothing to click or change;
    when none is, the controls are drawn. *)
Theorem one_settings_request (w : World) :
  reachable w ->
  List.length (pending w) <= 1
  /\ (render (state w) = LoadingSettings <-> pending w <> [])
  /\ (pending w <> [] -> forall e, user e w = w).
Proof.
  intros Hreach. destruct (panel_reachable_consistent _ Hreach) as [Hload Hidle].
  unfold Settings.user, render.
  destruct (loading (state w)) eqn:Hl.
  - destruct (Hload eq_refl) as [c ->]. cbn [List.length].
    repeat split; try lia; try discriminate.
    intros _ e. destruct e; reflexivity.
  - rewrite (Hidle eq_refl). cbn [List.length].
    repeat split; try lia; try discriminate; intros H; now contradiction H.
Qed.

End Panel.

Lemma panel_loaded_reachable :
  reachable "http://localhost:8001" MoreExamples.panel_loaded.
Proof.
  apply (reach_step _ (Settings.mounted "http://localhost:8001"));
    [apply reach_mounted |].
  apply step_settle. apply le_n.
Qed.

Lemma panel_refused_reachable :
  reachable "http://localhost:8001" MoreExamples.panel_refused.
Proof.
  apply (reach_step _ (Settings.user "http://localhost:8001" ClickSave
                         MoreExamples.panel_loaded)).
  - apply (reach_step _ MoreExamples.panel_loaded);
      [apply panel_loaded_reachable | apply step_user].
  - apply step_settle. apply le_n.
Qed.

Lemma panel_saving_reachable :
  reachable "http://localhost:8001"
    (Settings.user "http://localhost:8001" ClickSave MoreExamples.panel_loaded).
Proof.
  apply (reach_step _ MoreExamples.panel_loaded);
    [apply panel_loaded_reachable | apply step_user].
Qed.


(** A second click while the save is pending, and clicks after it was
    refused. *)
Lemma save_locked_out_witness :
  let saving := Settings.user "http://localhost:8001" ClickSave
                  MoreExamples.panel_loaded in
  let w' := Settings.user "http://localhost:8001" ClickSave
              (Settings.user "http://localhost:8001" (ChangeProvider Openrouter)
                 MoreExamples.panel_refused) in
  (status (state saving) = "Saving..."
   /\ Settings.user "http://localhost:8001" ClickSave saving = saving)
  /\ sent w' = sent MoreExamples.panel_refused
  /\ status (state w') = status (state MoreExamples.panel_refused)
  /\ loading (state w') = false
  /\ save_enabled (state w') = false.
Proof.
  intros saving w'. split.
  - destruct (proj1 (save_locked_out "http://localhost:8001" saving saving
                       panel_saving_reachable)
                (updateSettings_call "http://localhost:8001"
                   (JObject [("llm_provider", JString "ollama")]))
                (or_introl eq_refl))
      as (_ & Hs & _ & Hnone).
    exact (conj Hs (Hnone ClickSave)).
  - apply (proj2 (proj2 (save_locked_out "http://localhost:8001"
                           MoreExamples.panel_refused w'
                           panel_refused_reachable)) eq_refl eq_refl).
    eapply steps_next; [apply (step_user _ (ChangeProvider Openrouter)) |].
    eapply steps_next; [apply (step_user _ ClickSave) |].
    apply steps_refl.
Defined.

Lemma one_settings_request_witness :
  List.length (pending (Settings.mounted "http://localhost:8001")) <= 1
  /\ (render (state (Settings.mounted "http://localhost:8001")) = LoadingSettings
      <-> pending (Settings.mounted "http://localhost:8001") <> [])
  /\ (pending (Settings.mounted "http://localhost:8001") <> [] ->
      forall e, Settings.user "http://localhost:8001" e
                  (Settings.mounted "http://localhost:8001")
                = Settings.mounted "http://localhost:8001").
Proof.
  exact (one_settings_request "http://localhost:8001" _
           (reach_mounted "http://localhost:8001")).
Defined.

End SettingsSpec.

(* ================================================================= *)
(** ** Requests of the whole page *)

Module PageSpec.
Import JS Api Page.

Section WithEnv.
Variable VITE_API_BASE_URL : option string.

#[local] Abbreviation baseUrl := (API_BASE VITE_API_BASE_URL).
#[local] Abbreviation mount := (Page.mount VITE_API_BASE_URL).
#[local] Abbreviation step := (Page.step VITE_API_BASE_URL).
#[local] Abbreviation reachable := (Page.reachable VITE_API_BASE_URL).




End WithEnv.


End PageSpec.

(* ================================================================= *)
(** ** Properties of the git helper scripts *)

Module ScriptsSpec.
Import Scripts.

Lemma is_empty_iff (s : string) : is_empty s = true <-> s = "".
Proof. unfold is_empty. apply String.eqb_eq. Qed.

Lemma is_empty_false (s : string) : s <> "" -> is_empty s = false.
Proof.
intros H. destruct (is_empty s) eqn:E; [|reflexivity].
apply is_empty_iff in E. contradiction.
Qed.

Lemma either_iff (a b c : ascii) : either a b c = true <-> c = a \/ c = b.
Proof.
unfold either. rewrite Bool.orb_true_iff, !Ascii.eqb_eq. reflexivity.
Qed.

(** X15 (git_safe_commit.sh).  Whatever git answers, the script pushes
    exactly when it was given a message and [git commit] returned 0; the
    tags are pushed exactly when the commit is; and the script fails (with
    status 1, and without running git at all) exactly when the message is
    missing: a failed commit or a failed push still ends with status 0. *)
Theorem push_iff_committed (git : list string -> nat) (argv : list string) :
  let r := git_safe_commit git argv in
  (In ["push"] (commands (actions r)) <->
     arg1 argv <> "" /\ git ["commit"; "-m"; arg1 argv] = 0) /\
  (In ["push"; "--tags"] (commands (actions r)) <->
     In ["push"] (commands (actions r))) /\
  (arg1 argv = "" -> commands (actions r) = [] /\ exit_status r = 1) /\
  (arg1 argv <> "" ->
     firstn 2 (commands (actions r)) =
       [["add"; "-A"]; ["commit"; "-m"; arg1 argv]] /\
     exit_status r = 0).
Proof.
intros r. subst r. unfold git_safe_commit.
destruct (is_empty (arg1 argv)) eqn:He.
- apply is_empty_iff in He. cbn.
  intuition congruence.
- assert (Hne : arg1 argv <> "").
  { intros H. apply is_empty_iff in H. congruence. }
  destruct (Nat.eqb (git ["commit"; "-m"; arg1 argv]) 0) eqn:Hc.
  + apply Nat.eqb_eq in Hc. cbn.
    intuition congruence.
  + apply Nat.eqb_neq in Hc. cbn.
    intuition (try discriminate; try congruence).
Qed.


Lemma confirms_accepted (response : string) :
  confirms response = true <-> In response accepted.
Proof.
split.
- destruct response as [|y [|e [|s [|c rest]]]]; cbn [confirms];
    try discriminate.
  + rewrite either_iff. intros [-> | ->]; cbn; auto.
  + rewrite !Bool.andb_true_iff, !either_iff.
    intros [[[-> | ->] [-> | ->]] [-> | ->]]; cbn; tauto.
- unfold accepted. cbn [In].
  intros H. repeat (destruct H as [<- | H]; [reflexivity|]). destruct H.
Qed.

(** X17 (git_discard_local_changes.sh).  The pattern accepts exactly ten
    responses ("y", "Y", and "yes" in any mix of cases); on those the script
    runs [git restore .] and then [git clean -f -d], and on every other
    response, the empty one included, it runs no git command at all.  Either
    way it ends with status 0. *)
Theorem discard_only_when_confirmed (response : string) :
  let r := git_discard_local_changes response in
  (In response accepted ->
     commands (actions r) = [["restore"; "."]; ["clean"; "-f"; "-d"]]) /\
  (~ In response accepted -> commands (actions r) = []) /\
  exit_status r = 0.
Proof.
intros r. subst r. unfold git_discard_local_changes.
destruct (confirms response) eqn:Hc.
- apply confirms_accepted in Hc. cbn. repeat apply conj; auto.
  intros H. contradiction.
- cbn. repeat apply conj; auto.
  intros H. apply confirms_accepted in H. congruence.
Qed.

End ScriptsSpec.
